(** * RefineDet_MxNet: the VGG-atrous feature extractor with feature fusion

    A shallow embedding of [gluoncv/model_zoo/refineDet/vgg_atrous_fusion.py].

    - Python exceptions are an error monad ([result]); the construction of a
      network additionally threads the state that [__init__] mutates (the
      blocks created so far and the parameters allocated so far).
    - Python lists are [list]s indexed with Python's rules (negative indices
      count from the end, out of range raises [IndexError]).
    - The tensor library ([F], i.e. [mxnet.ndarray] or [mxnet.symbol]) is an
      interface, [TensorEngine]; every operator may raise.  Three engines are
      given: nested lists for the data movement of [repeat], shapes for the
      shape inference of [mxnet.ndarray], and terms for [mxnet.symbol]. *)

From stdpp Require Import gmap strings list pretty.

Set Default Proof Using "Type".
Open Scope Z_scope.

(** ** Exceptions *)

Inductive exn :=
  | AssertionError
  | IndexError
  | KeyError
  | AttributeError
  | MXNetError (msg : string).

Inductive result (A : Type) :=
  | Ok (a : A)
  | Raise (e : exn).
Arguments Ok {A} a.
Arguments Raise {A} e.

#[global] Instance result_ret : MRet result := λ A a, Ok a.
#[global] Instance result_bind : MBind result := λ A B k m,
  match m with Ok a => k a | Raise e => Raise e end.

Definition assert (b : bool) : result unit :=
  if b then Ok tt else Raise AssertionError.

Definition is_ok {A} (r : result A) : bool :=
  match r with Ok _ => true | Raise _ => false end.

(** ** Python lists *)

(** [l[i]] and [l[i] = v]: a negative index counts from the end. *)
Definition py_index {A} (l : list A) (i : Z) : result nat :=
  let n := Z.of_nat (length l) in
  let j := if i <? 0 then i + n else i in
  if (0 <=? j) && (j <? n) then Ok (Z.to_nat j) else Raise IndexError.

Definition getitem {A} (l : list A) (i : Z) : result A :=
  j ← py_index l i;
  match l !! j with
  | Some a => Ok a
  | None => Raise IndexError
  end.

Definition setitem {A} (l : list A) (i : Z) (v : A) : result (list A) :=
  j ← py_index l i;
  Ok (<[j:=v]> l).

(** [range(n)] for an [int] n: empty when n <= 0. *)
Definition range (n : Z) : list Z := Z.of_nat <$> seq 0 (Z.to_nat n).

(** [zip] stops at the shorter list. *)
Fixpoint zip {A B} (l : list A) (k : list B) : list (A * B) :=
  match l, k with
  | a :: l', b :: k' => (a, b) :: zip l' k'
  | _, _ => []
  end.

(** [for x in l: acc = f(acc, x)] where the body may raise. *)
Fixpoint for_each {M} `{MRet M, MBind M} {A S}
    (l : list A) (f : S → A → M S) (s : S) : M S :=
  match l with
  | [] => mret s
  | a :: l' => s' ← f s a; for_each l' f s'
  end.

(** ** [x.repeat(axis, repeats)] and [_upsample] *)

Class Repeat (T : Type) := tensor_repeat : T → Z → Z → result T.

(** [_upsample(x, stride=2)] *)
Definition _upsample {T} `{Repeat T} (x : T) (stride : Z) : result T :=
  y ← tensor_repeat x (-1) stride;
  tensor_repeat y (-2) stride.

(** The value semantics of [repeat] on a 4-dimensional array, as nested lists
    in the layout (batch, channel, height, width): every entry along the axis
    is written [repeats] times in a row. *)
Module NDArray.

Abbreviation t A := (list (list (list (list A)))) (only parsing).

Fixpoint repeat_each {B} (r : nat) (l : list B) : list B :=
  match l with
  | [] => []
  | b :: l' => replicate r b ++ repeat_each r l'
  end.

Definition repeat {A} (x : t A) (axis repeats : Z) : result (t A) :=
  let ax := if axis <? 0 then axis + 4 else axis in
  if repeats <? 0 then Raise (MXNetError "repeats must be non-negative")
  else
    let r := Z.to_nat repeats in
    match ax with
    | 0 => Ok (repeat_each r x)
    | 1 => Ok (repeat_each r <$> x)
    | 2 => Ok (fmap (M:=list) (repeat_each r) <$> x)
    | 3 => Ok (fmap (M:=list) (fmap (M:=list) (repeat_each r)) <$> x)
    | _ => Raise (MXNetError "axis out of range")
    end.

#[global] Instance Repeat_NDArray {A} : Repeat (t A) := repeat.

(** Every level of nesting is rectangular. *)
Definition has_shape {A} (x : t A) (N C H W : nat) : Prop :=
  length x = N ∧
  Forall (λ img, length img = C ∧
    Forall (λ ch, length ch = H ∧
      Forall (λ row, length row = W) ch) img) x.

Definition at_ {A} (x : t A) (n c i j : nat) : option A :=
  img ← x !! n; ch ← img !! c; row ← ch !! i; row !! j.

End NDArray.

(** ** Blocks and parameters *)

(** A Python float literal [mant]e[expo]. *)
Record decimal := Dec { mant : Z; expo : Z }.

Inductive initializer :=
  | Xavier (rnd_type factor_type : string) (magnitude : Z)
  | Zeros
  | Ones
  | Constant (value : Z)
  | ConstantArray (values : list decimal) (times : Z).

Record Param := {
  p_name : string;
  p_shape : list Z;       (* 0 is a dimension that is inferred at first use *)
  p_init : initializer
}.

(** The leaves of the network.  A parameter is referred to by its position
    in the list of parameters allocated so far. *)
Inductive Layer :=
  | Conv2D (channels : Z) (kernel_size strides padding dilation : Z * Z)
           (weight bias : nat)
  | BatchNorm (gamma beta running_mean running_var : nat)
  | Activation (act_type : string).

Record HybridSequential := {
  prefix : string;
  children : list Layer
}.

Record Normalize := {
  n_channel : Z;
  eps : decimal;
  scale : nat
}.

Record conv_init := {
  weight_initializer : initializer;
  bias_initializer : initializer
}.

(** ** Construction: the state that [__init__] mutates *)

Record BuildState := {
  blocks : list string;        (* the class of every block created, in order *)
  params : list Param          (* every parameter allocated, in order *)
}.

Definition empty_state : BuildState := {| blocks := []; params := [] |}.

Definition Build (A : Type) : Type := BuildState → BuildState * result A.

#[global] Instance Build_ret : MRet Build := λ A a s, (s, Ok a).
#[global] Instance Build_bind : MBind Build := λ A B k m s,
  match m s with
  | (s', Ok a) => k a s'
  | (s', Raise e) => (s', Raise e)
  end.

Definition lift {A} (r : result A) : Build A := λ s, (s, r).

Definition new_block (cls : string) : Build unit := λ s,
  ({| blocks := blocks s ++ [cls]; params := params s |}, Ok tt).

(** [self.params.get(name, shape=..., init=...)] *)
Definition params_get (name : string) (shape : list Z) (init : initializer)
    : Build nat := λ s,
  ({| blocks := blocks s;
      params := params s ++ [{| p_name := name; p_shape := shape; p_init := init |}] |},
   Ok (length (params s))).

(** gluon turns an [int] kernel, stride, padding or dilation into a pair. *)
Definition int2 (k : Z) : Z * Z := (k, k).

(** [nn.Conv2D(channels, kernel_size, strides=1, padding=0, dilation=1,
    weight_initializer=..., bias_initializer=...)] *)
Definition nn_Conv2D (channels : Z) (kernel_size strides padding dilation : Z * Z)
    (init : conv_init) : Build Layer :=
  new_block "Conv2D";;
  w ← params_get "weight" [channels; 0; kernel_size.1; kernel_size.2]
        (weight_initializer init);
  b ← params_get "bias" [channels] (bias_initializer init);
  mret (Conv2D channels kernel_size strides padding dilation w b).

Definition nn_BatchNorm : Build Layer :=
  new_block "BatchNorm";;
  gamma ← params_get "gamma" [0] Ones;
  beta ← params_get "beta" [0] Zeros;
  running_mean ← params_get "running_mean" [0] Zeros;
  running_var ← params_get "running_var" [0] Ones;
  mret (BatchNorm gamma beta running_mean running_var).

Definition nn_Activation (act_type : string) : Build Layer :=
  new_block "Activation";;
  mret (Activation act_type).

(** [nn.HybridSequential(prefix)]: an empty container; [add] appends. *)
Definition nn_HybridSequential (prefix : string) : Build HybridSequential :=
  new_block "HybridSequential";;
  mret {| prefix := prefix; children := [] |}.

Definition add (seq : HybridSequential) (l : Layer) : HybridSequential :=
  {| prefix := prefix seq; children := children seq ++ [l] |}.

(** [Normalize.__init__(n_channel, initial=1, eps=1e-5)] *)
Definition Normalize_init (n_channel initial : Z) : Build Normalize :=
  new_block "Normalize";;
  sc ← params_get "normalize_scale" [1; n_channel; 1; 1] (Constant initial);
  mret {| n_channel := n_channel; eps := Dec 1 (-5); scale := sc |}.

(** [if batch_norm: seq.add(nn.BatchNorm())] *)
Definition add_BatchNorm_if (batch_norm : bool) (seq : HybridSequential)
    : Build HybridSequential :=
  if batch_norm then bn ← nn_BatchNorm; mret (add seq bn) else mret seq.

(** ** [VGGAtrousBase] *)

Record VGGAtrousBase := {
  init : conv_init;
  init_scale : nat;
  stages : list HybridSequential;
  norm4 : Normalize;
  norm5 : Normalize
}.

Definition VGGAtrousBase_init (layers filters : list Z) (batch_norm : bool)
    : Build VGGAtrousBase :=
  (* super().__init__ sets up the name scope and an empty
     parameter dictionary for the network itself *)
  lift (assert (bool_decide (length layers = length filters)));;
  let init := {| weight_initializer := Xavier "gaussian" "out" 2;
                 bias_initializer := Zeros |} in
  init_scale ← params_get "init_scale" [1; 3; 1; 1]
    (ConstantArray [Dec 229 (-3); Dec 224 (-3); Dec 225 (-3)] 255);
  new_block "HybridSequential";;
  stages ← for_each (zip layers filters) (λ stages '(l, f),
    stage ← nn_HybridSequential "";
    stage ← for_each (range l) (λ stage _,
      conv ← nn_Conv2D f (int2 3) (int2 1) (int2 1) (int2 1) init;
      stage ← add_BatchNorm_if batch_norm (add stage conv);
      relu ← nn_Activation "relu";
      mret (add stage relu)) stage;
    mret (stages ++ [stage])) [];
  (* use dilated convolution instead of dense layers *)
  stage ← nn_HybridSequential "dilated_";
  conv ← nn_Conv2D 1024 (int2 3) (int2 1) (int2 6) (int2 6) init;
  stage ← add_BatchNorm_if batch_norm (add stage conv);
  relu ← nn_Activation "relu";
  let stage := add stage relu in
  conv ← nn_Conv2D 1024 (int2 1) (int2 1) (int2 0) (int2 1) init;
  stage ← add_BatchNorm_if batch_norm (add stage conv);
  relu ← nn_Activation "relu";
  let stage := add stage relu in
  let stages := stages ++ [stage] in
  (* normalize layer for 4-th *)
  f3 ← lift (getitem filters 3);
  norm4 ← Normalize_init f3 20;
  norm5 ← Normalize_init 1024 8;
  mret {| init := init; init_scale := init_scale; stages := stages;
          norm4 := norm4; norm5 := norm5 |}.

(** ** [VGGAtrousExtractor] *)

Record VGGAtrousExtractor := {
  base : VGGAtrousBase;
  extras : list HybridSequential;
  last_layer_trans : HybridSequential;
  transitions : list HybridSequential;
  fusions : list HybridSequential
}.

(** One entry of an extra stage: (filters, kernel, stride, padding). *)
Definition extra_conv : Type := Z * Z * Z * Z.

(** [enumerate(l)] *)
Definition enumerate {A} (l : list A) : list (Z * A) :=
  zip (Z.of_nat <$> seq 0 (length l)) l.

Definition conv3x3_256 (init : conv_init) : Build Layer :=
  nn_Conv2D 256 (3, 3) (1, 1) (int2 1) (int2 1) init.

Definition VGGAtrousExtractor_init (layers filters : list Z)
    (extras : list (list extra_conv)) (batch_norm : bool)
    : Build VGGAtrousExtractor :=
  base ← VGGAtrousBase_init layers filters batch_norm;
  let init := init base in
  new_block "HybridSequential";;
  extras ← for_each (enumerate extras) (λ acc '(i, config),
    extra ← nn_HybridSequential ("extra" +:+ pretty i +:+ "_");
    extra ← for_each config (λ extra '(f, k, s, p),
      conv ← nn_Conv2D f (int2 k) (int2 s) (int2 p) (int2 1) init;
      extra ← add_BatchNorm_if batch_norm (add extra conv);
      relu ← nn_Activation "relu";
      mret (add extra relu)) extra;
    mret (acc ++ [extra])) [];
  (* trans for the last layer *)
  last_layer_trans ← nn_HybridSequential "trans_last_layer";
  last_layer_trans ← for_each (range 3) (λ seq _,
    conv ← conv3x3_256 init;
    seq ← add_BatchNorm_if batch_norm (add seq conv);
    relu ← nn_Activation "relu";
    mret (add seq relu)) last_layer_trans;
  (* trans for other 3 layers *)
  new_block "HybridSequential";;
  transitions ← for_each (range 3) (λ acc i,
    transition ← nn_HybridSequential ("translayer" +:+ pretty i +:+ "_");
    conv ← conv3x3_256 init;
    transition ← add_BatchNorm_if batch_norm (add transition conv);
    relu ← nn_Activation "relu";
    let transition := add transition relu in
    conv ← conv3x3_256 init;
    transition ← add_BatchNorm_if batch_norm (add transition conv);
    mret (acc ++ [transition])) [];
  (* for fusion *)
  new_block "HybridSequential";;
  fusions ← for_each (range 3) (λ acc i,
    fusion ← nn_HybridSequential ("fuse" +:+ pretty i +:+ "_");
    conv ← conv3x3_256 init;
    fusion ← add_BatchNorm_if batch_norm (add fusion conv);
    relu ← nn_Activation "relu";
    mret (acc ++ [add fusion relu])) [];
  mret {| base := base; extras := extras; last_layer_trans := last_layer_trans;
          transitions := transitions; fusions := fusions |}.

(** ** Presets and factory functions *)

Definition vgg_spec : gmap Z (list Z * list Z) :=
  <[11 := ([1; 1; 2; 2; 2], [64; 128; 256; 512; 512])]> (
  <[13 := ([2; 2; 2; 2; 2], [64; 128; 256; 512; 512])]> (
  <[16 := ([2; 2; 3; 3; 3], [64; 128; 256; 512; 512])]> (
  <[19 := ([2; 2; 4; 4; 4], [64; 128; 256; 512; 512])]> ∅))).

Definition extra_spec : gmap Z (list (list extra_conv)) :=
  <[320 := [[(256, 1, 1, 0); (512, 3, 2, 1)];
            [(128, 1, 1, 0); (256, 3, 2, 1)]]]> (
  <[512 := [[(256, 1, 1, 0); (512, 3, 2, 1)];
            [(128, 1, 1, 0); (256, 3, 2, 1)]]]> ∅).

(** [d[k]] on a dict *)
Definition dict_getitem {V} (d : gmap Z V) (k : Z) : result V :=
  match d !! k with
  | Some v => Ok v
  | None => Raise KeyError
  end.

(** What [get_vgg_atrous_extractor] calls when [pretrained] is set and that
    lives outside this file: [net.initialize], the package's
    [model_store.get_model_file] and [net.load_parameters].  They act on the
    values of the parameters; the network object itself is not replaced. *)
Record ModelStore := {
  initialize : VGGAtrousExtractor → Build unit;
  get_model_file : string → string → Build string;
  load_parameters : VGGAtrousExtractor → string → Build unit
}.

(** [get_vgg_atrous_extractor(num_layers, im_size, pretrained=False, **kwargs)]
    with the keyword argument [batch_norm]; [pretrained] is [None] for
    [False] and the tag otherwise. *)
Definition get_vgg_atrous_extractor (store : ModelStore)
    (num_layers im_size : Z) (pretrained : option string) (batch_norm : bool)
    : Build VGGAtrousExtractor :=
  '(layers, filters) ← lift (dict_getitem vgg_spec num_layers);
  extras ← lift (dict_getitem extra_spec im_size);
  net ← VGGAtrousExtractor_init layers filters extras batch_norm;
  match pretrained with
  | Some tag =>
      let batch_norm_suffix := if batch_norm then "_bn" else "" in
      initialize store net;;
      file ← get_model_file store
        ("vgg" +:+ pretty num_layers +:+ "_atrous" +:+ batch_norm_suffix) tag;
      load_parameters store net file;;
      mret net
  | None => mret net
  end.

Definition vgg16_atrous_320 (store : ModelStore) pretrained batch_norm :=
  get_vgg_atrous_extractor store 16 320 pretrained batch_norm.

Definition vgg16_atrous_512 (store : ModelStore) pretrained batch_norm :=
  get_vgg_atrous_extractor store 16 512 pretrained batch_norm.

(** ** The tensor library *)

Class TensorEngine (T : Type) `{Repeat T} := {
  (* the value of a parameter: [Parameter.data()] or [Parameter.var()] *)
  param_data : nat → result T;
  F_broadcast_mul : T → T → result T;
  (* F.L2Normalization(x, mode, eps) *)
  F_L2Normalization : T → string → decimal → result T;
  (* F.Pooling(x, pool_type, kernel, stride, pad, pooling_convention) *)
  F_Pooling : T → string → Z * Z → Z * Z → Z * Z → string → result T;
  (* F.Activation(x, act_type) *)
  F_Activation : T → string → result T;
  (* F.Convolution(x, weight, bias, kernel, stride, dilate, pad, num_filter) *)
  F_Convolution : T → T → T → Z * Z → Z * Z → Z * Z → Z * Z → Z → result T;
  (* F.BatchNorm(x, gamma, beta, running_mean, running_var) *)
  F_BatchNorm : T → T → T → T → T → result T;
  (* x + y *)
  tensor_add : T → T → result T
}.

Section forward.
Context {T : Type} `{TensorEngine T}.

Definition Layer_forward (l : Layer) (x : T) : result T :=
  match l with
  | Conv2D channels kernel_size strides padding dilation weight bias =>
      w ← param_data weight;
      b ← param_data bias;
      F_Convolution x w b kernel_size strides dilation padding channels
  | BatchNorm gamma beta running_mean running_var =>
      g ← param_data gamma;
      b ← param_data beta;
      m ← param_data running_mean;
      v ← param_data running_var;
      F_BatchNorm x g b m v
  | Activation act_type => F_Activation x act_type
  end.

(** [HybridSequential.hybrid_forward]: [for block in children: x = block(x)] *)
Definition HybridSequential_forward (seq : HybridSequential) (x : T) : result T :=
  for_each (children seq) (λ x l, Layer_forward l x) x.

Definition Normalize_forward (self : Normalize) (x : T) : result T :=
  scale ← param_data (scale self);
  x ← F_L2Normalization x "channel" (eps self);
  F_broadcast_mul x scale.

(** A Python list of tensors may hold [None]. *)
Definition tensor_of (v : option T) : result T :=
  match v with
  | Some t => Ok t
  | None => Raise AttributeError
  end.

(** The dictionary [outputs]: a list of tensors, or [None], under each key. *)
Local Abbreviation outputs_t := (gmap string (list (option T))).

(** [outputs[key]] *)
Definition outputs_get (outputs : outputs_t) (key : string)
    : result (list (option T)) :=
  match outputs !! key with
  | Some l => Ok l
  | None => Raise KeyError
  end.

(** [outputs[key].append(v)] *)
Definition outputs_append (outputs : outputs_t) (key : string) (v : T)
    : result outputs_t :=
  l ← outputs_get outputs key;
  Ok (<[key := l ++ [Some v]]> outputs).

(** [outputs[key][i] = v] *)
Definition outputs_setitem (outputs : outputs_t) (key : string) (i : Z) (v : T)
    : result outputs_t :=
  l ← outputs_get outputs key;
  l ← setitem l i (Some v);
  Ok (<[key := l]> outputs).

(** [outputs[key][i]] *)
Definition outputs_getitem (outputs : outputs_t) (key : string) (i : Z)
    : result (option T) :=
  l ← outputs_get outputs key;
  getitem l i.

(** The pooling that follows stages 0 to 3:
    [F.Pooling(x, pool_type='max', kernel=(2, 2), stride=(2, 2),
    pooling_convention='full')] *)
Definition max_pool_2x2 (x : T) : result T :=
  F_Pooling x "max" (2, 2) (2, 2) (0, 0) "full".

Definition hybrid_forward (self : VGGAtrousExtractor) (x init_scale : T)
    : result outputs_t :=
  x ← F_broadcast_mul x init_scale;
  assert (bool_decide (length (stages (base self)) = 6%nat));;
  let outputs : outputs_t :=
    <["ARM_features" := []]> (<["ODM_features" := []]> ∅) in
  x ← for_each (take 3 (stages (base self))) (λ x stage,
    x ← HybridSequential_forward stage x;
    max_pool_2x2 x) x;
  stage ← getitem (stages (base self)) 3;
  x ← HybridSequential_forward stage x;
  norm4 ← Normalize_forward (norm4 (base self)) x;  (* norm for conv4_3 *)
  outputs ← outputs_append outputs "ARM_features" norm4;
  x ← max_pool_2x2 x;
  stage ← getitem (stages (base self)) 4;
  x ← HybridSequential_forward stage x;
  x ← F_Pooling x "max" (3, 3) (1, 1) (1, 1) "full";
  stage ← getitem (stages (base self)) 5;
  x ← HybridSequential_forward stage x;
  norm5 ← Normalize_forward (norm5 (base self)) x;
  outputs ← outputs_append outputs "ARM_features" norm5;  (* conv_fc7 *)
  '(x, outputs) ← for_each (extras self) (λ '(x, outputs) extra,
    x ← HybridSequential_forward extra x;
    outputs ← outputs_append outputs "ARM_features" x;
    mret (x, outputs)) (x, outputs);
  (* features fusion *)
  let outputs := <["ODM_features" := replicate 4 None]> outputs in
  (* for conv6_2. do not upsample. *)
  last ← outputs_getitem outputs "ARM_features" (-1);
  last ← tensor_of last;
  p6 ← HybridSequential_forward (last_layer_trans self) last;
  outputs ← outputs_setitem outputs "ODM_features" (-1) p6;
  (* build P5, P4, P3 *)
  outputs ← for_each [3; 2; 1] (λ outputs i,
    deep_fet ← outputs_getitem outputs "ODM_features" i;
    shallow_fet ← outputs_getitem outputs "ARM_features" (i - 1);
    deep_fet ← tensor_of deep_fet;
    upsampled_fet ← _upsample deep_fet 2;
    transition ← getitem (transitions self) (i - 1);
    shallow_fet ← tensor_of shallow_fet;
    transition_fet ← HybridSequential_forward transition shallow_fet;
    sum ← tensor_add upsampled_fet transition_fet;
    ele_sum ← F_Activation sum "relu";
    outputs_setitem outputs "ODM_features" (i - 1) ele_sum) outputs;
  for_each (range 3) (λ outputs i,
    fusion ← getitem (fusions self) i;
    fet ← outputs_getitem outputs "ODM_features" i;
    fet ← tensor_of fet;
    fused ← HybridSequential_forward fusion fet;
    outputs_setitem outputs "ODM_features" i fused) outputs.

(** [HybridBlock.forward]: the parameters the block registered itself
    ([init_scale]) are fetched and passed to [hybrid_forward]. *)
Definition forward (self : VGGAtrousExtractor) (x : T) : result outputs_t :=
  init_scale ← param_data (init_scale (base self));
  hybrid_forward self x init_scale.

End forward.

(** ** [mxnet.symbol]: composing operators builds a term and checks nothing *)
Module Symbol.

Inductive t :=
  | var (name : string)
  | param (id : nat)
  | broadcast_mul (lhs rhs : t)
  | L2Normalization (x : t) (mode : string) (eps : decimal)
  | Pooling (x : t) (pool_type : string) (kernel stride pad : Z * Z)
            (pooling_convention : string)
  | Activation (x : t) (act_type : string)
  | Convolution (x weight bias : t) (kernel stride dilate pad : Z * Z)
                (num_filter : Z)
  | BatchNorm (x gamma beta moving_mean moving_var : t)
  | Plus (lhs rhs : t)
  | repeat (x : t) (axis repeats : Z).

#[global] Instance Repeat_Symbol : Repeat t := λ x axis repeats,
  Ok (repeat x axis repeats).

#[global] Instance engine : TensorEngine t := {
  param_data id := Ok (param id);
  F_broadcast_mul x y := Ok (broadcast_mul x y);
  F_L2Normalization x mode eps := Ok (L2Normalization x mode eps);
  F_Pooling x pool_type kernel stride pad convention :=
    Ok (Pooling x pool_type kernel stride pad convention);
  F_Activation x act_type := Ok (Activation x act_type);
  F_Convolution x w b kernel stride dilate pad num_filter :=
    Ok (Convolution x w b kernel stride dilate pad num_filter);
  F_BatchNorm x g b m v := Ok (BatchNorm x g b m v);
  tensor_add x y := Ok (Plus x y)
}.

End Symbol.

(** ** [mxnet.ndarray], up to shapes: every operator infers the shape of its
    result and raises when the shapes do not fit *)
Module Shape.

Definition t : Type := list Z.

Definition shape_error {A} : result A := Raise (MXNetError "shape").

Fixpoint broadcast (a b : t) : result t :=
  match a, b with
  | [], [] => Ok []
  | x :: a', y :: b' =>
      r ← broadcast a' b';
      if bool_decide (x = y) then Ok (x :: r)
      else if bool_decide (x = 1) then Ok (y :: r)
      else if bool_decide (y = 1) then Ok (x :: r)
      else shape_error
  | _, _ => shape_error
  end.

(** One spatial dimension of a pooling: 1 + ceil((x + 2p - k) / s) with the
    "full" convention, 1 + floor(..) otherwise. *)
Definition pool_dim (full : bool) (x k s p : Z) : result Z :=
  let a := x + 2 * p - k in
  if (a <? 0) || (s <=? 0) then shape_error
  else Ok (1 + (if full then (a + s - 1) / s else a / s)).

(** One spatial dimension of a convolution:
    1 + floor((x + 2p - d(k-1) - 1) / s). *)
Definition conv_dim (x k s d p : Z) : result Z :=
  let a := x + 2 * p - d * (k - 1) - 1 in
  if (a <? 0) || (s <=? 0) then shape_error
  else Ok (1 + a / s).

Definition pooling (x : t) (kernel stride pad : Z * Z) (convention : string)
    : result t :=
  match x with
  | [n; c; h; w] =>
      let full := bool_decide (convention = "full") in
      h' ← pool_dim full h kernel.1 stride.1 pad.1;
      w' ← pool_dim full w kernel.2 stride.2 pad.2;
      Ok [n; c; h'; w']
  | _ => shape_error
  end.

Definition convolution (x : t) (kernel stride dilate pad : Z * Z)
    (num_filter : Z) : result t :=
  match x with
  | [n; c; h; w] =>
      h' ← conv_dim h kernel.1 stride.1 dilate.1 pad.1;
      w' ← conv_dim w kernel.2 stride.2 dilate.2 pad.2;
      Ok [n; num_filter; h'; w']
  | _ => shape_error
  end.

Definition repeat (x : t) (axis repeats : Z) : result t :=
  let rank := Z.of_nat (length x) in
  let ax := if axis <? 0 then axis + rank else axis in
  if (repeats <? 0) || (ax <? 0) || (rank <=? ax) then shape_error
  else Ok (alter (Z.mul repeats) (Z.to_nat ax) x).

#[global] Instance Repeat_Shape : Repeat t := repeat.

(** The shapes of the parameters are those of the allocated parameters
    [ps]; the channel dimension that a convolution or a batch
    normalisation infers from its input is not checked. *)
Definition engine (ps : list Param) : TensorEngine t := {|
  param_data id :=
    match ps !! id with
    | Some p => Ok (p_shape p)
    | None => Raise (MXNetError "parameter")
    end;
  F_broadcast_mul := broadcast;
  F_L2Normalization x mode eps := Ok x;
  F_Pooling x pool_type kernel stride pad convention :=
    pooling x kernel stride pad convention;
  F_Activation x act_type := Ok x;
  F_Convolution x w b kernel stride dilate pad num_filter :=
    convolution x kernel stride dilate pad num_filter;
  F_BatchNorm x g b m v := Ok x;
  tensor_add := broadcast
|}.

End Shape.

(** ** Statement-side definitions *)

(** The architecture of a layer: the layer without the identity of its
    parameters. *)
Inductive Arch :=
  | AConv (channels : Z) (kernel_size strides padding dilation : Z * Z)
  | ABatchNorm
  | AAct (act_type : string).

Definition layer_arch (l : Layer) : Arch :=
  match l with
  | Conv2D channels kernel_size strides padding dilation _ _ =>
      AConv channels kernel_size strides padding dilation
  | BatchNorm _ _ _ _ => ABatchNorm
  | Activation act_type => AAct act_type
  end.

Definition arch (seq : HybridSequential) : list Arch :=
  layer_arch <$> children seq.

(** The names the specification gives to the failures. *)
Inductive error_class := ConfigurationError | ShapeError | OtherError.

Definition error_class_of (e : exn) : error_class :=
  match e with
  | AssertionError | KeyError => ConfigurationError
  | MXNetError _ => ShapeError
  | _ => OtherError
  end.

(** The architecture of a transition branch, of a fusion block and of
    [last_layer_trans]. *)
Definition conv3x3_256_arch : Arch := AConv 256 (3, 3) (1, 1) (1, 1) (1, 1).

Definition batch_norm_arch (batch_norm : bool) : list Arch :=
  if batch_norm then [ABatchNorm] else [].

(** The architecture of an extra stage built from [config]. *)
Definition extra_arch (batch_norm : bool) (config : list extra_conv) : list Arch :=
  mjoin ((λ '(f, k, s, p),
    [AConv f (int2 k) (int2 s) (int2 p) (int2 1)] ++ batch_norm_arch batch_norm ++
    [AAct "relu"]) <$> config).

(** ** Properties of a construction *)

(** The parameters allocated so far are never removed or renumbered. *)
Definition grows {A} (m : Build A) : Prop :=
  ∀ s s' r, m s = (s', r) → params s `prefix_of` params s'.

(** Runs that do not raise. *)
Definition total {A} (m : Build A) : Prop := ∀ s, ∃ s' a, m s = (s', Ok a).

(** ** The forward pass, step by step *)

Section forward_steps.
Context {T : Type} `{TensorEngine T}.

(** The dictionary with the two lists. *)
Definition mk_outputs (arm odm : list (option T))
    : gmap string (list (option T)) :=
  <["ARM_features" := arm]> (<["ODM_features" := odm]> ∅).

(** [self.stages[k](x)] *)
Definition run_stage (self : VGGAtrousExtractor) (k : Z) (x : T) : result T :=
  stage ← getitem (stages (base self)) k;
  HybridSequential_forward stage x.

(** The output of stage 3 (conv4_3): the input is scaled, stages 0, 1 and 2
    are each followed by the 2x2 pooling, then stage 3 runs. *)
Definition conv4_3 (self : VGGAtrousExtractor) (x init_scale : T) : result T :=
  x ← F_broadcast_mul x init_scale;
  x ← run_stage self 0 x;
  x ← max_pool_2x2 x;
  x ← run_stage self 1 x;
  x ← max_pool_2x2 x;
  x ← run_stage self 2 x;
  x ← max_pool_2x2 x;
  run_stage self 3 x.

(** The output of the dilated stage (conv_fc7), from the output of stage 3:
    2x2 pooling, stage 4, the 3x3 stride-1 pooling, stage 5. *)
Definition conv_fc7 (self : VGGAtrousExtractor) (x : T) : result T :=
  x ← max_pool_2x2 x;
  x ← run_stage self 4 x;
  x ← F_Pooling x "max" (3, 3) (1, 1) (1, 1) "full";
  run_stage self 5 x.

(** The outputs of the extra stages, each fed with the output of the one
    before. *)
Fixpoint extras_outputs (es : list HybridSequential) (x : T) : result (list T) :=
  match es with
  | [] => Ok []
  | e :: es' =>
      y ← HybridSequential_forward e x;
      ys ← extras_outputs es' y;
      Ok (y :: ys)
  end.

(** ReLU(upsample2x(deep) + transitions[i-1](shallow)) *)
Definition top_down (self : VGGAtrousExtractor) (i : Z) (deep shallow : T)
    : result T :=
  upsampled ← _upsample deep 2;
  transition ← getitem (transitions self) (i - 1);
  transitioned ← HybridSequential_forward transition shallow;
  sum ← tensor_add upsampled transitioned;
  F_Activation sum "relu".

(** fusions[i](x) *)
Definition fuse (self : VGGAtrousExtractor) (i : Z) (x : T) : result T :=
  fusion ← getitem (fusions self) i;
  HybridSequential_forward fusion x.

End forward_steps.

(** ** Example networks *)

(** A model store that leaves the parameters as they were initialised. *)
Definition no_store : ModelStore := {|
  initialize _ := mret ();
  get_model_file name tag := mret name;
  load_parameters _ _ := mret ()
|}.

(** The network [vgg16_atrous_320()], the state its construction leaves, and
    the shapes of its outputs on a batch of one 320x320 RGB image. *)
Definition vgg16_state : BuildState :=
  ltac:(let r := eval vm_compute in
                   (vgg16_atrous_320 no_store None false empty_state) in
        match r with (?s, Ok _) => exact s end).

Definition vgg16_net : VGGAtrousExtractor :=
  ltac:(let r := eval vm_compute in
                   (vgg16_atrous_320 no_store None false empty_state) in
        match r with (_, Ok ?n) => exact n end).

#[local] Instance vgg16_engine : TensorEngine Shape.t :=
  Shape.engine (params vgg16_state).

Definition vgg16_out : gmap string (list (option Shape.t)) :=
  ltac:(let r := eval vm_compute in
                   (hybrid_forward vgg16_net [1; 3; 320; 320] [1; 3; 1; 1]) in
        match r with Ok ?o => exact o end).

(** A network of five base stages, built from four VGG stages. *)
Definition vgg4_state : BuildState :=
  ltac:(let r := eval vm_compute in
                   (VGGAtrousExtractor_init [2; 2; 3; 3] [64; 128; 256; 512]
                      [[(256, 1, 1, 0); (512, 3, 2, 1)];
                       [(128, 1, 1, 0); (256, 3, 2, 1)]] false empty_state) in
        match r with (?s, Ok _) => exact s end).

Definition vgg4_net : VGGAtrousExtractor :=
  ltac:(let r := eval vm_compute in
                   (VGGAtrousExtractor_init [2; 2; 3; 3] [64; 128; 256; 512]
                      [[(256, 1, 1, 0); (512, 3, 2, 1)];
                       [(128, 1, 1, 0); (256, 3, 2, 1)]] false empty_state) in
        match r with (_, Ok ?n) => exact n end).

(** A network with a single extra stage, and the graph that its forward pass
    composes from symbols. *)
Definition one_extra_state : BuildState :=
  ltac:(let r := eval vm_compute in
                   (VGGAtrousExtractor_init [2; 2; 3; 3; 3] [64; 128; 256; 512; 512]
                      [[(256, 1, 1, 0); (512, 3, 2, 1)]] false empty_state) in
        match r with (?s, Ok _) => exact s end).

Definition one_extra_net : VGGAtrousExtractor :=
  ltac:(let r := eval vm_compute in
                   (VGGAtrousExtractor_init [2; 2; 3; 3; 3] [64; 128; 256; 512; 512]
                      [[(256, 1, 1, 0); (512, 3, 2, 1)]] false empty_state) in
        match r with (_, Ok ?n) => exact n end).

Definition one_extra_out : gmap string (list (option Symbol.t)) :=
  ltac:(let r := eval vm_compute in
                   (hybrid_forward one_extra_net (Symbol.var "data") (Symbol.param 0)) in
        match r with Ok ?o => exact o end).

(** A network without extra stages. *)
Definition no_extras_state : BuildState :=
  ltac:(let r := eval vm_compute in
                   (VGGAtrousExtractor_init [2; 2; 3; 3; 3] [64; 128; 256; 512; 512]
                      [] false empty_state) in
        match r with (?s, Ok _) => exact s end).

Definition no_extras_net : VGGAtrousExtractor :=
  ltac:(let r := eval vm_compute in
                   (VGGAtrousExtractor_init [2; 2; 3; 3; 3] [64; 128; 256; 512; 512]
                      [] false empty_state) in
        match r with (_, Ok ?n) => exact n end).

(** Runs that raise [e]. *)
Definition raises {A} (e : exn) (m : Build A) : Prop :=
  ∀ s, ∃ s', m s = (s', Raise e).

(** The architecture of a VGG stage of [l] blocks with [f] filters, and of
    the dilated stage. *)
Definition stage_arch (batch_norm : bool) (l f : Z) : list Arch :=
  mjoin (replicate (Z.to_nat l)
           ([AConv f (3, 3) (1, 1) (1, 1) (1, 1)] ++ batch_norm_arch batch_norm ++
            [AAct "relu"])).

Definition dilated_arch (batch_norm : bool) : list Arch :=
  [AConv 1024 (3, 3) (1, 1) (6, 6) (6, 6)] ++ batch_norm_arch batch_norm ++
  [AAct "relu"; AConv 1024 (1, 1) (1, 1) (0, 0) (1, 1)] ++
  batch_norm_arch batch_norm ++ [AAct "relu"].

(** Every sequential block of the network. *)
Definition sequentials (net : VGGAtrousExtractor) : list HybridSequential :=
  stages (base net) ++ extras net ++ [last_layer_trans net] ++
  transitions net ++ fusions net.

(** [batch_norm_discipline batch_norm l]: in the list of layers [l], a batch
    normalisation stands only right after a convolution, and a convolution is
    followed by one exactly when [batch_norm] is set. *)
Fixpoint batch_norm_discipline (batch_norm : bool) (l : list Arch) : bool :=
  match l with
  | [] => true
  | AConv _ _ _ _ _ :: l' =>
      match l' with
      | ABatchNorm :: l'' => batch_norm && batch_norm_discipline batch_norm l''
      | _ => negb batch_norm && batch_norm_discipline batch_norm l'
      end
  | ABatchNorm :: _ => false
  | AAct _ :: l' => batch_norm_discipline batch_norm l'
  end.

(** An engine none of whose operators raises, as [mxnet.symbol] when a graph
    is composed. *)
Definition engine_total (T : Type) `{TensorEngine T} : Prop :=
  (∀ id, ∃ t, param_data id = Ok t) ∧
  (∀ (x : T) axis repeats, ∃ y, tensor_repeat x axis repeats = Ok y) ∧
  (∀ x y : T, ∃ z, F_broadcast_mul x y = Ok z) ∧
  (∀ (x : T) mode eps, ∃ y, F_L2Normalization x mode eps = Ok y) ∧
  (∀ (x : T) pool_type kernel stride pad convention,
     ∃ y, F_Pooling x pool_type kernel stride pad convention = Ok y) ∧
  (∀ (x : T) act_type, ∃ y, F_Activation x act_type = Ok y) ∧
  (∀ (x w b : T) kernel stride dilate pad num_filter,
     ∃ y, F_Convolution x w b kernel stride dilate pad num_filter = Ok y) ∧
  (∀ x g b m v : T, ∃ y, F_BatchNorm x g b m v = Ok y) ∧
  (∀ x y : T, ∃ z, tensor_add x y = Ok z).

(** The parameters a layer, a sequential block and a network refer to, in
    the order of the blocks. *)
Definition layer_params (l : Layer) : list nat :=
  match l with
  | Conv2D _ _ _ _ _ weight bias => [weight; bias]
  | BatchNorm gamma beta running_mean running_var =>
      [gamma; beta; running_mean; running_var]
  | Activation _ => []
  end.

Definition sequential_params (seq : HybridSequential) : list nat :=
  mjoin (layer_params <$> children seq).

Definition net_params (net : VGGAtrousExtractor) : list nat :=
  [init_scale (base net)] ++
  mjoin (sequential_params <$> stages (base net)) ++
  [scale (norm4 (base net)); scale (norm5 (base net))] ++
  mjoin (sequential_params <$> extras net) ++
  sequential_params (last_layer_trans net) ++
  mjoin (sequential_params <$> transitions net) ++
  mjoin (sequential_params <$> fusions net).

(** [alloc s s' ids]: from [s] to [s'] the parameters [ids] have been
    allocated, in this order, and nothing else. *)
Definition alloc (s s' : BuildState) (ids : list nat) : Prop :=
  ∃ k, length (params s') = (length (params s) + k)%nat ∧
       ids = seq (length (params s)) k.

(** [self.init]: the initialisers handed to every convolution. *)
Definition xavier_init : conv_init :=
  {| weight_initializer := Xavier "gaussian" "out" 2; bias_initializer := Zeros |}.

(** In the parameters [ps], the weight and the bias of a convolution are the
    ones a [Conv2D] with the initialisers of [self.init] allocates. *)
Definition layer_init_ok (ps : list Param) (l : Layer) : Prop :=
  match l with
  | Conv2D channels kernel_size _ _ _ weight bias =>
      ps !! weight =
        Some {| p_name := "weight";
                p_shape := [channels; 0; kernel_size.1; kernel_size.2];
                p_init := Xavier "gaussian" "out" 2 |} ∧
      ps !! bias =
        Some {| p_name := "bias"; p_shape := [channels]; p_init := Zeros |}
  | _ => True
  end.

Definition sequential_init_ok (ps : list Param) (seq : HybridSequential) : Prop :=
  Forall (layer_init_ok ps) (children seq).

(* ================================================================== *)
(** * Properties *)

(** ** The error monad *)

Lemma bind_Ok {A B} (m : result A) (k : A → result B) (b : B) :
  m ≫= k = Ok b → ∃ a, m = Ok a ∧ k a = Ok b.
Proof. destruct m as [a|e]; [eauto | discriminate]. Qed.

(** ** Python indexing *)

Lemma getitem_nonneg {A} (l : list A) (i : Z) :
  0 ≤ i →
  getitem l i = match l !! Z.to_nat i with Some a => Ok a | None => Raise IndexError end.
Proof.
  intros Hi. unfold getitem, py_index.
  destruct (Z.ltb_spec i 0); [lia|].
  destruct (Z.leb_spec 0 i); [|lia]. cbn [andb].
  destruct (Z.ltb_spec i (Z.of_nat (length l))); [done|]. cbn.
  rewrite lookup_ge_None_2; [done | lia].
Qed.

Lemma getitem_last {A} (l : list A) :
  getitem l (-1) = match last l with Some a => Ok a | None => Raise IndexError end.
Proof.
  unfold getitem, py_index. cbn [Z.ltb Z.compare].
  destruct l as [|a l] using rev_ind; [done|].
  rewrite last_snoc, length_app. cbn [length].
  destruct (Z.leb_spec 0 (-1 + Z.of_nat (length l + 1))); [|lia].
  destruct (Z.ltb_spec (-1 + Z.of_nat (length l + 1)) (Z.of_nat (length l + 1))); [|lia].
  cbn. replace (Z.to_nat (-1 + Z.of_nat (length l + 1))) with (length l) by lia.
  by rewrite list_lookup_middle.
Qed.

Lemma setitem_nonneg {A} (l : list A) (i : Z) (v : A) :
  0 ≤ i → (Z.to_nat i < length l)%nat →
  setitem l i v = Ok (<[Z.to_nat i := v]> l).
Proof.
  intros Hi Hlt. unfold setitem, py_index.
  destruct (Z.ltb_spec i 0); [lia|].
  destruct (Z.leb_spec 0 i); [|lia].
  destruct (Z.ltb_spec i (Z.of_nat (length l))); [done | lia].
Qed.

(** ** Nearest-neighbour upsampling *)

Lemma length_repeat_each {B} (r : nat) (l : list B) :
  length (NDArray.repeat_each r l) = (r * length l)%nat.
Proof.
  induction l as [|b l IH]; cbn; [lia|].
  rewrite length_app, length_replicate, IH. lia.
Qed.

Lemma lookup_repeat_each {B} (r : nat) (l : list B) (i a : nat) :
  (a < r)%nat → NDArray.repeat_each r l !! (r * i + a)%nat = l !! i.
Proof.
  intros Ha. revert i. induction l as [|b l IH]; intros i; cbn.
  - by rewrite !lookup_nil.
  - destruct i as [|i].
    + rewrite lookup_app_l by (rewrite length_replicate; lia).
      rewrite lookup_replicate_2 by lia. done.
    + rewrite lookup_app_r by (rewrite length_replicate; lia).
      rewrite length_replicate.
      replace (r * S i + a - r)%nat with (r * i + a)%nat by lia.
      apply IH.
Qed.

Example upsample_2x2 :
  _upsample (T:=NDArray.t Z) [[[[1; 2]; [3; 4]]]] 2 =
  Ok [[[[1; 1; 2; 2]; [1; 1; 2; 2]; [3; 3; 4; 4]; [3; 3; 4; 4]]]].
Proof. reflexivity. Qed.

Lemma upsample_NDArray {A} (x : NDArray.t A) :
  _upsample x 2 =
  Ok (fmap (M:=list) (fmap (M:=list)
        (λ ch, NDArray.repeat_each 2 (NDArray.repeat_each 2 <$> ch))) x).
Proof.
  unfold _upsample, tensor_repeat, NDArray.Repeat_NDArray, NDArray.repeat.
  change (-1 + 4) with 3. change (-2 + 4) with 2.
  change (Z.to_nat 2) with 2%nat. cbn.
  f_equal. rewrite <- list_fmap_compose. apply list_fmap_ext. intros _ img _. cbn.
  rewrite <- list_fmap_compose. by apply list_fmap_ext.
Qed.

Lemma has_shape_at {A} (x : NDArray.t A) (N C H W n c i j : nat) :
  NDArray.has_shape x N C H W →
  (n < N)%nat → (c < C)%nat → (i < H)%nat → (j < W)%nat →
  is_Some (NDArray.at_ x n c i j).
Proof.
  intros [HN Hx] Hn Hc Hi Hj. unfold NDArray.at_.
  destruct (lookup_lt_is_Some_2 x n) as [img Himg]; [lia|].
  rewrite Himg. cbn.
  destruct (Forall_lookup_1 _ _ _ _ Hx Himg) as [HC Himg'].
  destruct (lookup_lt_is_Some_2 img c) as [ch Hch]; [lia|].
  rewrite Hch. cbn.
  destruct (Forall_lookup_1 _ _ _ _ Himg' Hch) as [HH Hch'].
  destruct (lookup_lt_is_Some_2 ch i) as [row Hrow]; [lia|].
  rewrite Hrow. cbn.
  pose proof (Forall_lookup_1 _ _ _ _ Hch' Hrow) as HW.
  apply lookup_lt_is_Some_2. cbn in HW. lia.
Qed.

(** C4: [_upsample] with its default stride is exact nearest-neighbour
    replication.  On an array of shape (N, C, H, W) it returns an array of
    shape (N, C, 2H, 2W) whose entry at (2i+a, 2j+b), for a, b in {0,1}, is the
    entry of the input at (i, j): the entries are copied, none is computed. *)
Theorem upsample_nearest_neighbor {A} (x : NDArray.t A) (N C H W : nat) :
  NDArray.has_shape x N C H W →
  ∃ y, _upsample x 2 = Ok y ∧
    NDArray.has_shape y N C (2 * H) (2 * W) ∧
    (∀ n c i j a b, (a < 2)%nat → (b < 2)%nat →
       NDArray.at_ y n c (2 * i + a) (2 * j + b) = NDArray.at_ x n c i j) ∧
    (∀ n c i j, (n < N)%nat → (c < C)%nat → (i < H)%nat → (j < W)%nat →
       is_Some (NDArray.at_ x n c i j)).
Proof.
  intros Hx. eexists. split; [apply upsample_NDArray|]. split; [|split].
  - destruct Hx as [HN Hx]. split; [by rewrite length_fmap|].
    apply Forall_fmap. eapply Forall_impl; [exact Hx|].
    intros img [HC Himg]. cbn. split; [by rewrite length_fmap|].
    apply Forall_fmap. eapply Forall_impl; [exact Himg|].
    intros ch [HH Hch]. cbn. split.
    + rewrite length_repeat_each, length_fmap. lia.
    + assert (Forall (λ row : list A, length row = (2 * W)%nat)
                (NDArray.repeat_each 2 <$> ch)) as Hrows.
      { apply Forall_fmap. eapply Forall_impl; [exact Hch|].
        intros row HW. cbn. rewrite length_repeat_each. cbn in HW. lia. }
      revert Hrows. generalize (NDArray.repeat_each 2 <$> ch).
      intros rows Hrows. induction Hrows as [|row rows Hrow _ IH]; cbn; [done|].
      repeat constructor; done.
  - intros n c i j a b Ha Hb. unfold NDArray.at_.
    rewrite list_lookup_fmap.
    destruct (x !! n) as [img|]; [cbn [fmap option_fmap option_map mbind option_bind]|done].
    rewrite list_lookup_fmap.
    destruct (img !! c) as [ch|]; [cbn [fmap option_fmap option_map mbind option_bind]|done].
    rewrite lookup_repeat_each by done.
    rewrite list_lookup_fmap.
    destruct (ch !! i) as [row|]; [cbn [fmap option_fmap option_map mbind option_bind]|done].
    by apply lookup_repeat_each.
  - intros. by eapply has_shape_at.
Qed.

Lemma upsample_nearest_neighbor_witness :
  ∃ y, _upsample (T:=NDArray.t Z) [[[[1; 2]; [3; 4]]]] 2 = Ok y ∧
    NDArray.has_shape y 1 1 4 4 ∧
    NDArray.at_ y 0 0 3 2 = Some 4.
Proof.
  destruct (upsample_nearest_neighbor (A:=Z) [[[[1; 2]; [3; 4]]]] 1 1 2 2)
    as (y & Hy & Hshape & Hval & _).
  - split; [reflexivity|]. repeat constructor.
  - exists y. split; [exact Hy|]. split; [exact Hshape|].
    exact (Hval 0 0 1 1 1 0 ltac:(lia) ltac:(lia))%nat.
Defined.

(** ** Construction *)

Lemma Build_bind_Ok {A B} (m : Build A) (k : A → Build B) s s' (b : B) :
  (m ≫= k) s = (s', Ok b) → ∃ s1 a, m s = (s1, Ok a) ∧ k a s1 = (s', Ok b).
Proof.
  unfold mbind, Build_bind. destruct (m s) as [s1 [a|e]]; [eauto | discriminate].
Qed.

Lemma Build_bind_Raise {A B} (m : Build A) (k : A → Build B) s s' e :
  m s = (s', Raise e) → (m ≫= k) s = (s', Raise e).
Proof. unfold mbind, Build_bind. by intros ->. Qed.

Lemma Build_bind_step {A B} (m : Build A) (k : A → Build B) s s1 a :
  m s = (s1, Ok a) → (m ≫= k) s = k a s1.
Proof. unfold mbind, Build_bind. by intros ->. Qed.

(** A loop whose body adds one entry to the list it builds. *)
Lemma for_each_Build_length {A X} (l : list A) (f : list X → A → Build (list X)) :
  (∀ acc a s s' acc', f acc a s = (s', Ok acc') → length acc' = S (length acc)) →
  ∀ acc s s' acc', for_each l f acc s = (s', Ok acc') →
    length acc' = (length acc + length l)%nat.
Proof.
  intros Hf. induction l as [|a l IH]; intros acc s s' acc' Hrun; cbn in Hrun.
  - injection Hrun as _ <-. cbn. lia.
  - apply Build_bind_Ok in Hrun as (s1 & acc1 & H1 & Hrun).
    apply Hf in H1. apply IH in Hrun. cbn. lia.
Qed.

(** A loop whose body cannot raise does not raise. *)
Lemma for_each_Build_total {A S} (l : list A) (f : S → A → Build S) :
  (∀ acc a s, ∃ s' acc', f acc a s = (s', Ok acc')) →
  ∀ acc s, ∃ s' acc', for_each l f acc s = (s', Ok acc').
Proof.
  intros Hf. induction l as [|a l IH]; intros acc s; cbn.
  - by eexists _, _.
  - destruct (Hf acc a s) as (s1 & acc1 & H1).
    rewrite (Build_bind_step _ _ _ _ _ H1). apply IH.
Qed.

(** A loop whose body extends a trace [m acc] by [h a]. *)
Lemma for_each_Build_trace {A S Y} (m : S → list Y) (h : A → list Y)
    (l : list A) (f : S → A → Build S) :
  (∀ acc a s s' acc', f acc a s = (s', Ok acc') → m acc' = m acc ++ h a) →
  ∀ acc s s' acc', for_each l f acc s = (s', Ok acc') →
    m acc' = m acc ++ mjoin (h <$> l).
Proof.
  intros Hf. induction l as [|a l IH]; intros acc s s' acc' Hrun; cbn in Hrun.
  - injection Hrun as _ <-. cbn. by rewrite app_nil_r.
  - apply Build_bind_Ok in Hrun as (s1 & acc1 & H1 & Hrun).
    apply Hf in H1. apply IH in Hrun. rewrite Hrun, H1. cbn.
    by rewrite <- app_assoc.
Qed.

Lemma snd_enumerate {A} (l : list A) : snd <$> enumerate l = l.
Proof.
  unfold enumerate. generalize 0%nat.
  induction l as [|a l IH]; intros n; cbn; [done|]. f_equal. apply IH.
Qed.

Lemma length_zip {A B} (l : list A) (k : list B) :
  length l = length k → length (zip l k) = length l.
Proof.
  revert k. induction l as [|a l IH]; intros [|b k]; cbn; try done.
  intros ?. f_equal. apply IH. lia.
Qed.

Lemma length_enumerate {A} (l : list A) : length (enumerate l) = length l.
Proof.
  unfold enumerate. rewrite length_zip; by rewrite length_fmap, length_seq.
Qed.

Lemma assert_Ok (b : bool) : assert b = Ok tt → b = true.
Proof. by destruct b. Qed.

(** C6: with [len(layers) != len(filters)] the constructor of
    [VGGAtrousBase], and with it the constructor of [VGGAtrousExtractor],
    raises at its assertion (the failure the specification calls a
    ConfigurationError), and the state is the one it started from: no block
    has been created and no parameter allocated. *)
Theorem mismatched_lengths_raise (layers filters : list Z)
    (extras : list (list extra_conv)) (batch_norm : bool) (s : BuildState) :
  length layers ≠ length filters →
  VGGAtrousBase_init layers filters batch_norm s = (s, Raise AssertionError) ∧
  VGGAtrousExtractor_init layers filters extras batch_norm s
    = (s, Raise AssertionError) ∧
  error_class_of AssertionError = ConfigurationError.
Proof.
  intros Hne.
  assert (VGGAtrousBase_init layers filters batch_norm s = (s, Raise AssertionError))
    as Hbase.
  { unfold VGGAtrousBase_init. apply Build_bind_Raise.
    unfold lift. by rewrite bool_decide_eq_false_2. }
  split; [exact Hbase|]. split; [|done].
  unfold VGGAtrousExtractor_init. by apply Build_bind_Raise.
Qed.

Lemma mismatched_lengths_raise_witness :
  VGGAtrousBase_init [2; 2; 3; 3; 3] [64; 128; 256; 512] false empty_state
    = (empty_state, Raise AssertionError) ∧
  VGGAtrousExtractor_init [2; 2; 3; 3; 3] [64; 128; 256; 512] [] false empty_state
    = (empty_state, Raise AssertionError) ∧
  error_class_of AssertionError = ConfigurationError.
Proof.
  apply (mismatched_lengths_raise [2; 2; 3; 3; 3] [64; 128; 256; 512] [] false
           empty_state).
  cbn. lia.
Defined.

Lemma grows_ret {A} (a : A) : grows (mret a).
Proof. intros s s' r [= <- _]. done. Qed.

Lemma grows_lift {A} (r : result A) : grows (lift r).
Proof. intros s s' r' [= <- _]. done. Qed.

Lemma grows_new_block cls : grows (new_block cls).
Proof. intros s s' r [= <- _]. done. Qed.

Lemma grows_params_get name shape init : grows (params_get name shape init).
Proof. intros s s' r [= <- _]. cbn. by apply prefix_app_r. Qed.

Lemma grows_bind {A B} (m : Build A) (k : A → Build B) :
  grows m → (∀ a, grows (k a)) → grows (m ≫= k).
Proof.
  intros Hm Hk s s' r. unfold mbind, Build_bind.
  destruct (m s) as [s1 [a|e]] eqn:E.
  - intros Hr. etrans; [by eapply Hm | by eapply Hk].
  - intros [= <- _]. by eapply Hm.
Qed.

Lemma grows_for_each {A S} (l : list A) (f : S → A → Build S) :
  (∀ acc a, grows (f acc a)) → ∀ acc, grows (for_each l f acc).
Proof.
  intros Hf. induction l as [|a l IH]; intros acc; cbn.
  - apply grows_ret.
  - apply grows_bind; [apply Hf | apply IH].
Qed.

Ltac solve_grows :=
  repeat first
    [ apply grows_ret | apply grows_lift | apply grows_new_block
    | apply grows_params_get
    | apply grows_bind; [|intros ?]
    | apply grows_for_each; intros ? ?
    | match goal with
      | |- grows (match ?x with _ => _ end) => destruct x
      | |- grows (let '_ := ?x in _) => destruct x
      end
    | progress unfold nn_Conv2D, nn_BatchNorm, nn_Activation, nn_HybridSequential,
        Normalize_init, add_BatchNorm_if, conv3x3_256 ].

Lemma grows_lookup {A} (m : Build A) s s' r (i : nat) (p : Param) :
  grows m → m s = (s', r) → params s !! i = Some p → params s' !! i = Some p.
Proof. intros Hm Hr Hi. eapply prefix_lookup_Some; [exact Hi | by eapply Hm]. Qed.

(** What a successful run of [VGGAtrousBase.__init__] has built. *)
Lemma VGGAtrousBase_init_inv (layers filters : list Z) (batch_norm : bool)
    s s' (b : VGGAtrousBase) :
  VGGAtrousBase_init layers filters batch_norm s = (s', Ok b) →
  length layers = length filters ∧
  length (stages b) = S (length layers) ∧
  ∃ f3, filters !! 3%nat = Some f3 ∧
    params s' !! scale (norm4 b) =
      Some {| p_name := "normalize_scale"; p_shape := [1; f3; 1; 1];
              p_init := Constant 20 |} ∧
    params s' !! scale (norm5 b) =
      Some {| p_name := "normalize_scale"; p_shape := [1; 1024; 1; 1];
              p_init := Constant 8 |}.
Proof.
  unfold VGGAtrousBase_init. intros H.
  apply Build_bind_Ok in H as (s1 & [] & Hassert & H).
  injection Hassert as <- Hassert. apply assert_Ok, bool_decide_eq_true_1 in Hassert.
  apply Build_bind_Ok in H as (s2 & init_scale & _ & H).
  apply Build_bind_Ok in H as (s3 & [] & _ & H).
  apply Build_bind_Ok in H as (s4 & stages & Hstages & H).
  apply for_each_Build_length in Hstages.
  2:{ intros acc [l f] t t' acc' Hbody.
      apply Build_bind_Ok in Hbody as (t1 & stage & _ & Hbody).
      apply Build_bind_Ok in Hbody as (t2 & stage' & _ & Hbody).
      injection Hbody as _ <-. rewrite length_app. cbn. lia. }
  rewrite length_zip in Hstages by done. cbn in Hstages.
  split; [done|].
  destruct batch_norm.
  all: apply Build_bind_Ok in H as (s5 & stage & _ & H).
  all: apply Build_bind_Ok in H as (s6 & conv & _ & H).
  all: apply Build_bind_Ok in H as (s7 & stage7 & _ & H).
  all: apply Build_bind_Ok in H as (s8 & relu & _ & H).
  all: apply Build_bind_Ok in H as (s9 & conv9 & _ & H).
  all: apply Build_bind_Ok in H as (s10 & stage10 & _ & H).
  all: apply Build_bind_Ok in H as (s11 & relu11 & _ & H).
  all: apply Build_bind_Ok in H as (s12 & f3 & Hf3 & H).
  all: injection Hf3 as <- Hf3.
  all: rewrite getitem_nonneg in Hf3 by lia.
  all: change (Z.to_nat 3) with 3%nat in Hf3.
  all: destruct (filters !! 3%nat) as [f3'|] eqn:E3; [|discriminate Hf3].
  all: injection Hf3 as ->.
  all: cbn in H; injection H as <- <-; cbn.
  all: split; [rewrite length_app; cbn; lia|].
  all: exists f3; split; [done|]; split.
  all: try (rewrite lookup_app_l by (rewrite length_app; cbn; lia);
            by rewrite list_lookup_middle).
  all: by rewrite list_lookup_middle by (rewrite length_app; cbn; lia).
Qed.

(** What a successful run of [VGGAtrousExtractor.__init__] has built. *)
Lemma VGGAtrousExtractor_init_inv (layers filters : list Z)
    (cfg : list (list extra_conv)) (batch_norm : bool) s s'
    (net : VGGAtrousExtractor) :
  VGGAtrousExtractor_init layers filters cfg batch_norm s = (s', Ok net) →
  ∃ s1, VGGAtrousBase_init layers filters batch_norm s = (s1, Ok (base net)) ∧
    params s1 `prefix_of` params s' ∧
    length (extras net) = length cfg ∧
    arch <$> extras net = extra_arch batch_norm <$> cfg ∧
    arch <$> transitions net =
      replicate 3 ([conv3x3_256_arch] ++ batch_norm_arch batch_norm ++
                   [AAct "relu"; conv3x3_256_arch] ++ batch_norm_arch batch_norm) ∧
    arch <$> fusions net =
      replicate 3 ([conv3x3_256_arch] ++ batch_norm_arch batch_norm ++
                   [AAct "relu"]) ∧
    arch (last_layer_trans net) =
      mjoin (replicate 3 ([conv3x3_256_arch] ++ batch_norm_arch batch_norm ++
                          [AAct "relu"])).
Proof.
  unfold VGGAtrousExtractor_init. intros H.
  apply Build_bind_Ok in H as (s1 & b & Hbase & H).
  exists s1.
  assert (params s1 `prefix_of` params s') as Hgrow.
  { refine ((_ : grows _) _ _ _ H). solve_grows. }
  apply Build_bind_Ok in H as (s2 & [] & _ & H).
  apply Build_bind_Ok in H as (s3 & ex & Hex & H).
  pose proof Hex as Harch.
  apply for_each_Build_length in Hex.
  2:{ intros acc [i config] t t' acc' Hbody.
      apply Build_bind_Ok in Hbody as (t1 & extra & _ & Hbody).
      apply Build_bind_Ok in Hbody as (t2 & extra' & _ & Hbody).
      injection Hbody as _ <-. rewrite length_app. cbn. lia. }
  rewrite length_enumerate in Hex. cbn in Hex.
  apply (for_each_Build_trace (fmap arch)
           (λ ic, [extra_arch batch_norm ic.2])) in Harch.
  2:{ intros acc [i config] t t' acc' Hbody.
      apply Build_bind_Ok in Hbody as (t1 & extra & Hnew & Hbody).
      apply Build_bind_Ok in Hbody as (t2 & extra' & Hinner & Hbody).
      injection Hbody as _ <-. injection Hnew as _ <-.
      rewrite fmap_app. cbn. do 2 f_equal.
      apply (for_each_Build_trace arch (λ '(f, k, s, p),
               [AConv f (int2 k) (int2 s) (int2 p) (int2 1)] ++
               batch_norm_arch batch_norm ++ [AAct "relu"])) in Hinner.
      - exact Hinner.
      - clear. intros acc [[[f k] st] p] s s' acc' Hbody.
        destruct batch_norm; cbv -[app length int2] in Hbody;
          injection Hbody as _ <-.
        all: unfold arch; cbn [children prefix]; rewrite !fmap_app; cbn.
        all: by rewrite <- ?app_assoc. }
  cbn in Harch.
  assert (arch <$> ex = extra_arch batch_norm <$> cfg) as Harch'.
  { rewrite Harch. rewrite <- (snd_enumerate cfg) at 2.
    generalize (enumerate cfg). clear. intros l.
    induction l as [|[i c] l IH]; [done|].
    rewrite !fmap_cons. cbn [mjoin list_join app snd]. f_equal. exact IH. }
  destruct batch_norm; vm_compute in H; injection H as _ <-; cbn.
  all: done.
Qed.

Lemma total_ret {A} (a : A) : total (mret a).
Proof. intros s. by eexists _, _. Qed.

Lemma total_lift {A} (r : result A) (a : A) : r = Ok a → total (lift r).
Proof. intros -> s. by eexists _, _. Qed.

Lemma total_new_block cls : total (new_block cls).
Proof. intros s. by eexists _, _. Qed.

Lemma total_params_get name shape init : total (params_get name shape init).
Proof. intros s. by eexists _, _. Qed.

Lemma total_bind {A B} (m : Build A) (k : A → Build B) :
  total m → (∀ a, total (k a)) → total (m ≫= k).
Proof.
  intros Hm Hk s. destruct (Hm s) as (s1 & a & H1).
  rewrite (Build_bind_step _ _ _ _ _ H1). apply Hk.
Qed.

Lemma total_for_each {A S} (l : list A) (f : S → A → Build S) :
  (∀ acc a, total (f acc a)) → ∀ acc, total (for_each l f acc).
Proof. intros Hf acc s. apply for_each_Build_total. intros. apply Hf. Qed.

Ltac solve_total :=
  repeat first
    [ apply total_ret | apply total_new_block | apply total_params_get
    | apply total_bind; [|intros ?]
    | apply total_for_each; intros ? ?
    | match goal with
      | |- total (match ?x with _ => _ end) => destruct x
      | |- total (let '_ := ?x in _) => destruct x
      end
    | progress unfold nn_Conv2D, nn_BatchNorm, nn_Activation, nn_HybridSequential,
        Normalize_init, add_BatchNorm_if, conv3x3_256 ].

(** The constructor succeeds as soon as the two lists have the same length
    and [filters[3]] exists. *)
Lemma VGGAtrousExtractor_init_total (layers filters : list Z)
    (cfg : list (list extra_conv)) (batch_norm : bool) :
  length layers = length filters → (4 ≤ length filters)%nat →
  total (VGGAtrousExtractor_init layers filters cfg batch_norm).
Proof.
  intros Hlen H4.
  destruct (lookup_lt_is_Some_2 filters 3) as [f3 Hf3]; [lia|].
  unfold VGGAtrousExtractor_init, VGGAtrousBase_init.
  apply total_bind; [|intros ?; solve_total].
  apply total_bind.
  { apply (total_lift _ ()). by rewrite bool_decide_eq_true_2. }
  intros _.
  do 10 (apply total_bind; [solve_total|intros ?]).
  apply total_bind; [|intros ?; solve_total].
  apply (total_lift _ f3). rewrite getitem_nonneg by lia.
  change (Z.to_nat 3) with 3%nat. by rewrite Hf3.
Qed.

(** ** The forward pass *)

Section forward_spec.
Context {T : Type} `{TensorEngine T}.

Lemma outputs_get_ARM (arm odm : list (option T)) :
  outputs_get (mk_outputs arm odm) "ARM_features" = Ok arm.
Proof. unfold outputs_get, mk_outputs. by rewrite lookup_insert_eq. Qed.

Lemma outputs_get_ODM (arm odm : list (option T)) :
  outputs_get (mk_outputs arm odm) "ODM_features" = Ok odm.
Proof.
  unfold outputs_get, mk_outputs.
  rewrite lookup_insert_ne by done. by rewrite lookup_insert_eq.
Qed.

Lemma insert_ARM (arm odm : list (option T)) l :
  <["ARM_features" := l]> (mk_outputs arm odm) = mk_outputs l odm.
Proof. unfold mk_outputs. by rewrite insert_insert_eq. Qed.

Lemma insert_ODM (arm odm : list (option T)) l :
  <["ODM_features" := l]> (mk_outputs arm odm) = mk_outputs arm l.
Proof.
  unfold mk_outputs. rewrite insert_insert_ne by done.
  by rewrite insert_insert_eq.
Qed.

Lemma outputs_append_ARM (arm odm : list (option T)) v :
  outputs_append (mk_outputs arm odm) "ARM_features" v
  = Ok (mk_outputs (arm ++ [Some v]) odm).
Proof. unfold outputs_append. rewrite outputs_get_ARM. cbn. by rewrite insert_ARM. Qed.

Lemma outputs_getitem_ARM (arm odm : list (option T)) i :
  outputs_getitem (mk_outputs arm odm) "ARM_features" i = getitem arm i.
Proof. unfold outputs_getitem. by rewrite outputs_get_ARM. Qed.

Lemma outputs_getitem_ODM (arm odm : list (option T)) i :
  outputs_getitem (mk_outputs arm odm) "ODM_features" i = getitem odm i.
Proof. unfold outputs_getitem. by rewrite outputs_get_ODM. Qed.

Lemma outputs_setitem_ODM (arm odm : list (option T)) i v :
  outputs_setitem (mk_outputs arm odm) "ODM_features" i v
  = (l ← setitem odm i (Some v); Ok (mk_outputs arm l)).
Proof.
  unfold outputs_setitem. rewrite outputs_get_ODM. cbn.
  destruct (setitem odm i (Some v)); cbn; [|done]. by rewrite insert_ODM.
Qed.

Lemma tensor_of_Ok (v : option T) (t : T) : tensor_of v = Ok t → v = Some t.
Proof. destruct v; cbn; congruence. Qed.

Lemma mk_outputs_lookup_ARM (arm odm : list (option T)) :
  mk_outputs arm odm !! "ARM_features" = Some arm.
Proof. unfold mk_outputs. by rewrite lookup_insert_eq. Qed.

Lemma mk_outputs_lookup_ODM (arm odm : list (option T)) :
  mk_outputs arm odm !! "ODM_features" = Some odm.
Proof.
  unfold mk_outputs. rewrite lookup_insert_ne by done. by rewrite lookup_insert_eq.
Qed.

Lemma mk_outputs_dom (arm odm : list (option T)) :
  dom (mk_outputs arm odm) = ({["ARM_features"; "ODM_features"]} : gset string).
Proof. unfold mk_outputs. rewrite !dom_insert_L, dom_empty_L. set_solver. Qed.

(** The loop over the extra stages appends their outputs. *)
Lemma extras_loop (es : list HybridSequential) (x x' : T)
    (arm odm : list (option T)) out :
  for_each es (λ '(x, outputs) extra,
    x ← HybridSequential_forward extra x;
    outputs ← outputs_append outputs "ARM_features" x;
    mret (x, outputs)) (x, mk_outputs arm odm) = Ok (x', out) →
  ∃ ys, extras_outputs es x = Ok ys ∧ length ys = length es ∧
    out = mk_outputs (arm ++ (Some <$> ys)) odm.
Proof.
  revert x arm. induction es as [|e es IH]; intros x arm Hloop; cbn in Hloop.
  - injection Hloop as _ <-. exists []. by rewrite app_nil_r.
  - apply bind_Ok in Hloop as ([y out1] & Hbody & Hloop).
    apply bind_Ok in Hbody as (y' & Hy & Hbody).
    rewrite outputs_append_ARM in Hbody. injection Hbody as -> <-.
    apply IH in Hloop as (ys & Hys & Hlen & ->).
    exists (y :: ys). cbn. rewrite Hy. cbn. rewrite Hys. cbn.
    split; [done|]. split; [by rewrite Hlen|]. by rewrite <- app_assoc.
Qed.

End forward_spec.

Section forward_inv.
Context {T : Type} `{TensorEngine T}.

Local Tactic Notation "step" hyp(H) ident(x) ident(Hx) :=
  apply bind_Ok in H as (x & Hx & H).

Lemma getitem_nonneg_Ok {A} (l : list A) (i : Z) (a : A) :
  0 ≤ i → getitem l i = Ok a → l !! Z.to_nat i = Some a.
Proof.
  intros Hi. rewrite getitem_nonneg by done.
  destruct (l !! Z.to_nat i); congruence.
Qed.

(** One round of the loop that builds P5, P4, P3. *)
Lemma top_down_round (self : VGGAtrousExtractor) (i : Z)
    (arm odm : list (option T)) out :
  0 < i → (Z.to_nat (i - 1) < length odm)%nat →
  (deep_fet ← outputs_getitem (mk_outputs arm odm) "ODM_features" i;
   shallow_fet ← outputs_getitem (mk_outputs arm odm) "ARM_features" (i - 1);
   deep_fet ← tensor_of deep_fet;
   upsampled_fet ← _upsample deep_fet 2;
   transition ← getitem (transitions self) (i - 1);
   shallow_fet ← tensor_of shallow_fet;
   transition_fet ← HybridSequential_forward transition shallow_fet;
   sum ← tensor_add upsampled_fet transition_fet;
   ele_sum ← F_Activation sum "relu";
   outputs_setitem (mk_outputs arm odm) "ODM_features" (i - 1) ele_sum) = Ok out →
  ∃ deep shallow r,
    odm !! Z.to_nat i = Some (Some deep) ∧
    arm !! Z.to_nat (i - 1) = Some (Some shallow) ∧
    top_down self i deep shallow = Ok r ∧
    out = mk_outputs arm (<[Z.to_nat (i - 1) := Some r]> odm).
Proof.
  intros Hi Hlen Hround.
  step Hround deep Hdeep. step Hround shallow Hshallow.
  step Hround deep' Hdeep'. step Hround up Hup.
  step Hround transition Htransition. step Hround shallow' Hshallow'.
  step Hround tr Htr. step Hround sum Hsum. step Hround r Hr.
  rewrite outputs_getitem_ODM in Hdeep. apply getitem_nonneg_Ok in Hdeep; [|lia].
  rewrite outputs_getitem_ARM in Hshallow.
  apply getitem_nonneg_Ok in Hshallow; [|lia].
  apply tensor_of_Ok in Hdeep' as ->. apply tensor_of_Ok in Hshallow' as ->.
  rewrite outputs_setitem_ODM, setitem_nonneg in Hround by (done || lia).
  injection Hround as <-.
  exists deep', shallow', r. split; [done|]. split; [done|]. split; [|done].
  unfold top_down. rewrite Hup. cbn. rewrite Htransition. cbn.
  rewrite Htr. cbn. rewrite Hsum. done.
Qed.

(** One round of the loop that applies the fusion blocks. *)
Lemma fuse_round (self : VGGAtrousExtractor) (i : Z)
    (arm odm : list (option T)) out :
  0 ≤ i →
  (fusion ← getitem (fusions self) i;
   fet ← outputs_getitem (mk_outputs arm odm) "ODM_features" i;
   fet ← tensor_of fet;
   fused ← HybridSequential_forward fusion fet;
   outputs_setitem (mk_outputs arm odm) "ODM_features" i fused) = Ok out →
  ∃ fet fused,
    odm !! Z.to_nat i = Some (Some fet) ∧
    fuse self i fet = Ok fused ∧
    out = mk_outputs arm (<[Z.to_nat i := Some fused]> odm).
Proof.
  intros Hi Hround.
  step Hround fusion Hfusion. step Hround fet Hfet. step Hround fet' Hfet'.
  step Hround fused Hfused.
  rewrite outputs_getitem_ODM in Hfet. apply getitem_nonneg_Ok in Hfet; [|lia].
  apply tensor_of_Ok in Hfet' as ->.
  rewrite outputs_setitem_ODM, setitem_nonneg in Hround;
    [|done|by eapply lookup_lt_Some].
  injection Hround as <-.
  exists fet', fused. split; [done|]. split; [|done].
  unfold fuse. rewrite Hfusion. done.
Qed.

(** What a successful forward pass has computed. *)
Lemma hybrid_forward_inv (self : VGGAtrousExtractor) (x init_scale : T) out :
  hybrid_forward self x init_scale = Ok out →
  length (stages (base self)) = 6%nat ∧
  ∃ x4 x6 n4 n5 ys deepest a2 p6 p5 p4 p3 o3 o4 o5,
    conv4_3 self x init_scale = Ok x4 ∧
    Normalize_forward (norm4 (base self)) x4 = Ok n4 ∧
    conv_fc7 self x4 = Ok x6 ∧
    Normalize_forward (norm5 (base self)) x6 = Ok n5 ∧
    extras_outputs (extras self) x6 = Ok ys ∧
    length ys = length (extras self) ∧
    last ([n4; n5] ++ ys) = Some deepest ∧
    ys !! 0%nat = Some a2 ∧
    HybridSequential_forward (last_layer_trans self) deepest = Ok p6 ∧
    top_down self 3 p6 a2 = Ok p5 ∧
    top_down self 2 p5 n5 = Ok p4 ∧
    top_down self 1 p4 n4 = Ok p3 ∧
    fuse self 0 p3 = Ok o3 ∧
    fuse self 1 p4 = Ok o4 ∧
    fuse self 2 p5 = Ok o5 ∧
    out = mk_outputs (Some <$> [n4; n5] ++ ys)
                     [Some o3; Some o4; Some o5; Some p6].
Proof.
  unfold hybrid_forward. intros Hfwd.
  step Hfwd x0 Hx0. step Hfwd u Hassert. destruct u.
  apply assert_Ok, bool_decide_eq_true_1 in Hassert.
  split; [done|].
  destruct (stages (base self)) as [|s0 [|s1 [|s2 [|s3 [|s4 [|s5 [|]]]]]]]
    eqn:Hstages; try discriminate Hassert.
  cbn [take for_each] in Hfwd.
  step Hfwd x3 Hloop.
  step Hloop x1 Hx1. step Hx1 y0 Hy0.
  step Hloop x2 Hx2. step Hx2 y1 Hy1.
  step Hloop x3' Hx3. step Hx3 y2 Hy2. injection Hloop as ->.
  step Hfwd st3 Hst3. vm_compute in Hst3. injection Hst3 as <-.
  step Hfwd x4 Hx4. step Hfwd n4 Hn4.
  fold (mk_outputs (T:=T) [] []) in Hfwd.
  step Hfwd out1 Hout1. rewrite outputs_append_ARM in Hout1. injection Hout1 as <-.
  step Hfwd x5 Hx5.
  step Hfwd st4 Hst4. vm_compute in Hst4. injection Hst4 as <-.
  step Hfwd x5' Hx5'. step Hfwd x5'' Hx5''.
  step Hfwd st5 Hst5. vm_compute in Hst5. injection Hst5 as <-.
  step Hfwd x6 Hx6. step Hfwd n5 Hn5.
  step Hfwd out2 Hout2. rewrite outputs_append_ARM in Hout2. injection Hout2 as <-.
  step Hfwd p Hextras. destruct p as [x7 out3].
  apply extras_loop in Hextras as (ys & Hys & Hlen & ->).
  cbv zeta in Hfwd. rewrite insert_ODM in Hfwd.
  step Hfwd last0 Hlast0. step Hfwd lst Hlast. apply tensor_of_Ok in Hlast as ->.
  rewrite outputs_getitem_ARM, getitem_last in Hlast0.
  change [Some n4; Some n5] with (Some <$> [n4; n5]) in *.
  rewrite <- fmap_app in *. rewrite fmap_last in Hlast0.
  destruct (last ([n4; n5] ++ ys)) as [lst'|] eqn:Hlst; [|discriminate].
  injection Hlast0 as ->.
  step Hfwd p6 Hp6.
  step Hfwd out4 Hout4. rewrite outputs_setitem_ODM in Hout4.
  step Hout4 odm4 Hodm4. vm_compute in Hodm4.
  injection Hodm4 as <-. injection Hout4 as <-.
  step Hfwd out5 Hloop. step Hloop r5 H5. step Hloop r4 H4. step Hloop r3 H3.
  injection Hloop as ->.
  apply top_down_round in H5 as (d5 & a2 & p5 & Hd5 & Ha2 & Hp5 & ->);
    [|lia|vm_compute; lia].
  injection Hd5 as <-.
  apply top_down_round in H4 as (d4 & a1 & p4 & Hd4 & Ha1 & Hp4 & ->);
    [|lia|vm_compute; lia].
  injection Hd4 as <-.
  apply top_down_round in H3 as (d3 & a0 & p3 & Hd3 & Ha0 & Hp3 & ->);
    [|lia|vm_compute; lia].
  injection Hd3 as <-.
  injection Ha1 as <-. injection Ha0 as <-.
  change (Z.to_nat (3 - 1)) with 2%nat in Ha2.
  assert (ys !! 0%nat = Some a2) as Hys0.
  { destruct ys as [|y ys']; [discriminate Ha2|].
    injection Ha2 as <-. done. }
  step Hfwd f0 Hf0. step Hfwd f1 Hf1. step Hfwd f2 Hf2. injection Hfwd as <-.
  apply fuse_round in Hf0 as (q0 & o3 & Hq0 & Ho3 & ->); [|lia].
  injection Hq0 as <-.
  apply fuse_round in Hf1 as (q1 & o4 & Hq1 & Ho4 & ->); [|lia].
  injection Hq1 as <-.
  apply fuse_round in Hf2 as (q2 & o5 & Hq2 & Ho5 & ->); [|lia].
  injection Hq2 as <-.
  exists x4, x6, n4, n5, ys, lst, a2, p6, p5, p4, p3, o3, o4, o5.
  repeat split; try done.
  - unfold conv4_3, run_stage. rewrite Hstages, Hx0.
    change (getitem [s0; s1; s2; s3; s4; s5] 0) with (Ok s0).
    change (getitem [s0; s1; s2; s3; s4; s5] 1) with (Ok s1).
    change (getitem [s0; s1; s2; s3; s4; s5] 2) with (Ok s2).
    change (getitem [s0; s1; s2; s3; s4; s5] 3) with (Ok s3).
    cbn. rewrite Hy0. cbn. rewrite Hx1. cbn. rewrite Hy1. cbn. rewrite Hx2. cbn.
    rewrite Hy2. cbn. rewrite Hx3. cbn. done.
  - unfold conv_fc7, run_stage. rewrite Hstages, Hx5.
    change (getitem [s0; s1; s2; s3; s4; s5] 4) with (Ok s4).
    change (getitem [s0; s1; s2; s3; s4; s5] 5) with (Ok s5).
    cbn. rewrite Hx5'. cbn. rewrite Hx5''. cbn. done.
Qed.

End forward_inv.

Lemma vgg16_built :
  vgg16_atrous_320 no_store None false empty_state = (vgg16_state, Ok vgg16_net).
Proof. vm_compute. exact eq_refl. Qed.

Lemma vgg16_forward :
  hybrid_forward vgg16_net [1; 3; 320; 320] [1; 3; 1; 1] = Ok vgg16_out.
Proof. vm_compute. exact eq_refl. Qed.

Example vgg16_shapes :
  vgg16_out !! "ARM_features" =
    Some [Some [1; 512; 40; 40]; Some [1; 1024; 20; 20];
          Some [1; 512; 10; 10]; Some [1; 256; 5; 5]] ∧
  vgg16_out !! "ODM_features" =
    Some [Some [1; 256; 40; 40]; Some [1; 256; 20; 20];
          Some [1; 256; 10; 10]; Some [1; 256; 5; 5]].
Proof. split; vm_compute; exact eq_refl. Qed.

Lemma two_outputs {A} (ys : list A) : length ys = 2%nat → ∃ y1 y2, ys = [y1; y2].
Proof. destruct ys as [|y1 [|y2 [|]]]; try discriminate. eauto. Qed.

(** C1: in a forward pass of a network with its two extra stages, the deepest
    ODM feature is [last_layer_trans] of [ARM_features[3]], not upsampled; for
    i = 3, 2, 1 the feature below is
    ReLU(upsample2x(ODM[i]) + transitions[i-1](ARM[i-1])), computed from the
    feature above before any fusion block is applied; and the returned list is
    [fusions[0](P3); fusions[1](P4); fusions[2](P5); P6]: the entry at index 3
    goes through no fusion block. *)
Theorem top_down_fusion {T : Type} `{TensorEngine T}
    (self : VGGAtrousExtractor) (x init_scale : T) out :
  length (extras self) = 2%nat →
  hybrid_forward self x init_scale = Ok out →
  ∃ a0 a1 a2 a3 p6 p5 p4 p3 o3 o4 o5,
    out !! "ARM_features" = Some [Some a0; Some a1; Some a2; Some a3] ∧
    HybridSequential_forward (last_layer_trans self) a3 = Ok p6 ∧
    top_down self 3 p6 a2 = Ok p5 ∧
    top_down self 2 p5 a1 = Ok p4 ∧
    top_down self 1 p4 a0 = Ok p3 ∧
    fuse self 0 p3 = Ok o3 ∧
    fuse self 1 p4 = Ok o4 ∧
    fuse self 2 p5 = Ok o5 ∧
    out !! "ODM_features" = Some [Some o3; Some o4; Some o5; Some p6].
Proof.
  intros Hextras Hfwd.
  apply hybrid_forward_inv in Hfwd
    as (_ & x4 & x6 & n4 & n5 & ys & deepest & a2 & p6 & p5 & p4 & p3 & o3 & o4 & o5
        & _ & _ & _ & _ & _ & Hlen & Hlast & Hys0 & Hp6 & Hp5 & Hp4 & Hp3
        & Ho3 & Ho4 & Ho5 & ->).
  rewrite <- Hlen in Hextras. apply two_outputs in Hextras as (y1 & y2 & ->).
  injection Hys0 as <-. injection Hlast as <-.
  exists n4, n5, y1, y2, p6, p5, p4, p3, o3, o4, o5.
  rewrite mk_outputs_lookup_ARM, mk_outputs_lookup_ODM. done.
Qed.

Lemma top_down_fusion_witness :
  length (extras vgg16_net) = 2%nat ∧
  hybrid_forward vgg16_net [1; 3; 320; 320] [1; 3; 1; 1] = Ok vgg16_out ∧
  ∃ a0 a1 a2 a3 p6 p5 p4 p3 o3 o4 o5,
    vgg16_out !! "ARM_features" = Some [Some a0; Some a1; Some a2; Some a3] ∧
    HybridSequential_forward (last_layer_trans vgg16_net) a3 = Ok p6 ∧
    top_down vgg16_net 3 p6 a2 = Ok p5 ∧
    top_down vgg16_net 2 p5 a1 = Ok p4 ∧
    top_down vgg16_net 1 p4 a0 = Ok p3 ∧
    fuse vgg16_net 0 p3 = Ok o3 ∧
    fuse vgg16_net 1 p4 = Ok o4 ∧
    fuse vgg16_net 2 p5 = Ok o5 ∧
    vgg16_out !! "ODM_features" = Some [Some o3; Some o4; Some o5; Some p6].
Proof.
  split; [reflexivity|]. split; [exact vgg16_forward|].
  exact (top_down_fusion vgg16_net [1; 3; 320; 320] [1; 3; 1; 1] vgg16_out
           eq_refl vgg16_forward).
Defined.

(** C3: when the forward pass of a network with its two extra stages
    returns, the result is a dictionary with exactly the keys "ARM_features"
    and "ODM_features", and under each key a list of exactly 4 tensors. *)
Theorem output_contract {T : Type} `{TensorEngine T}
    (self : VGGAtrousExtractor) (x init_scale : T) out :
  length (extras self) = 2%nat →
  hybrid_forward self x init_scale = Ok out →
  dom out = ({["ARM_features"; "ODM_features"]} : gset string) ∧
  ∃ arm odm : list T,
    out !! "ARM_features" = Some (Some <$> arm) ∧ length arm = 4%nat ∧
    out !! "ODM_features" = Some (Some <$> odm) ∧ length odm = 4%nat.
Proof.
  intros Hextras Hfwd.
  apply hybrid_forward_inv in Hfwd
    as (_ & x4 & x6 & n4 & n5 & ys & deepest & a2 & p6 & p5 & p4 & p3 & o3 & o4 & o5
        & _ & _ & _ & _ & _ & Hlen & _ & _ & _ & _ & _ & _ & _ & _ & _ & ->).
  split; [apply mk_outputs_dom|].
  exists ([n4; n5] ++ ys), [o3; o4; o5; p6].
  rewrite mk_outputs_lookup_ARM, mk_outputs_lookup_ODM.
  repeat split; try done. rewrite length_app, Hlen, Hextras. done.
Qed.

Lemma output_contract_witness :
  length (extras vgg16_net) = 2%nat ∧
  hybrid_forward vgg16_net [1; 3; 320; 320] [1; 3; 1; 1] = Ok vgg16_out ∧
  dom vgg16_out = ({["ARM_features"; "ODM_features"]} : gset string) ∧
  ∃ arm odm : list Shape.t,
    vgg16_out !! "ARM_features" = Some (Some <$> arm) ∧ length arm = 4%nat ∧
    vgg16_out !! "ODM_features" = Some (Some <$> odm) ∧ length odm = 4%nat.
Proof.
  split; [reflexivity|]. split; [exact vgg16_forward|].
  exact (output_contract vgg16_net [1; 3; 320; 320] [1; 3; 1; 1] vgg16_out
           eq_refl vgg16_forward).
Defined.

(** C2: for a network built by the constructor with two extra stages, the
    list under "ARM_features" that the forward pass returns holds, in this
    order: the output of stage 3 (the fourth stage) through the Normalize
    layer whose scale is initialised to 20, the output of the dilated stage
    through the Normalize layer whose scale is initialised to 8, the output
    of the first extra stage and the output of the second extra stage. *)
Theorem ARM_features_order (layers filters : list Z)
    (cfg : list (list extra_conv)) (batch_norm : bool) s s'
    (net : VGGAtrousExtractor) :
  VGGAtrousExtractor_init layers filters cfg batch_norm s = (s', Ok net) →
  length cfg = 2%nat →
  (∃ f3, filters !! 3%nat = Some f3 ∧
     params s' !! scale (norm4 (base net)) =
       Some {| p_name := "normalize_scale"; p_shape := [1; f3; 1; 1];
               p_init := Constant 20 |}) ∧
  params s' !! scale (norm5 (base net)) =
    Some {| p_name := "normalize_scale"; p_shape := [1; 1024; 1; 1];
            p_init := Constant 8 |} ∧
  ∃ extra1 extra2, extras net = [extra1; extra2] ∧
    ∀ (T : Type) (R : Repeat T) (F : TensorEngine T) (x init_scale : T) out,
      hybrid_forward net x init_scale = Ok out →
      ∃ x4 x6 n4 n5 y1 y2,
        conv4_3 net x init_scale = Ok x4 ∧
        Normalize_forward (norm4 (base net)) x4 = Ok n4 ∧
        conv_fc7 net x4 = Ok x6 ∧
        Normalize_forward (norm5 (base net)) x6 = Ok n5 ∧
        HybridSequential_forward extra1 x6 = Ok y1 ∧
        HybridSequential_forward extra2 y1 = Ok y2 ∧
        out !! "ARM_features" = Some [Some n4; Some n5; Some y1; Some y2].
Proof.
  intros Hbuild Hcfg.
  apply VGGAtrousExtractor_init_inv in Hbuild
    as (s1 & Hbase & Hgrow & Hextras & _).
  apply VGGAtrousBase_init_inv in Hbase as (_ & _ & f3 & Hf3 & Hn4 & Hn5).
  split; [exists f3; split; [done|]; by eapply prefix_lookup_Some|].
  split; [by eapply prefix_lookup_Some|].
  rewrite Hcfg in Hextras. apply two_outputs in Hextras as (extra1 & extra2 & He).
  exists extra1, extra2. split; [done|].
  intros T R F x init_scale out Hfwd.
  apply hybrid_forward_inv in Hfwd
    as (_ & x4 & x6 & n4 & n5 & ys & deepest & a2 & p6 & p5 & p4 & p3 & o3 & o4 & o5
        & Hx4 & Hnorm4 & Hx6 & Hnorm5 & Hys & _ & _ & _ & _ & _ & _ & _ & _ & _ & _
        & ->).
  rewrite He in Hys. cbn in Hys.
  apply bind_Ok in Hys as (y1 & Hy1 & Hys).
  apply bind_Ok in Hys as (ys' & Hy2 & Hys).
  apply bind_Ok in Hy2 as (y2 & Hy2 & Hys').
  injection Hys' as <-. injection Hys as <-.
  exists x4, x6, n4, n5, y1, y2. rewrite mk_outputs_lookup_ARM. done.
Qed.

Lemma vgg16_init :
  VGGAtrousExtractor_init [2; 2; 3; 3; 3] [64; 128; 256; 512; 512]
    [[(256, 1, 1, 0); (512, 3, 2, 1)]; [(128, 1, 1, 0); (256, 3, 2, 1)]]
    false empty_state = (vgg16_state, Ok vgg16_net).
Proof. vm_compute. exact eq_refl. Qed.

Lemma ARM_features_order_witness :
  VGGAtrousExtractor_init [2; 2; 3; 3; 3] [64; 128; 256; 512; 512]
    [[(256, 1, 1, 0); (512, 3, 2, 1)]; [(128, 1, 1, 0); (256, 3, 2, 1)]]
    false empty_state = (vgg16_state, Ok vgg16_net) ∧
  (∃ f3, [64; 128; 256; 512; 512] !! 3%nat = Some f3 ∧
     params vgg16_state !! scale (norm4 (base vgg16_net)) =
       Some {| p_name := "normalize_scale"; p_shape := [1; f3; 1; 1];
               p_init := Constant 20 |}) ∧
  params vgg16_state !! scale (norm5 (base vgg16_net)) =
    Some {| p_name := "normalize_scale"; p_shape := [1; 1024; 1; 1];
            p_init := Constant 8 |} ∧
  ∃ extra1 extra2, extras vgg16_net = [extra1; extra2] ∧
    ∀ (T : Type) (R : Repeat T) (F : TensorEngine T) (x init_scale : T) out,
      hybrid_forward vgg16_net x init_scale = Ok out →
      ∃ x4 x6 n4 n5 y1 y2,
        conv4_3 vgg16_net x init_scale = Ok x4 ∧
        Normalize_forward (norm4 (base vgg16_net)) x4 = Ok n4 ∧
        conv_fc7 vgg16_net x4 = Ok x6 ∧
        Normalize_forward (norm5 (base vgg16_net)) x6 = Ok n5 ∧
        HybridSequential_forward extra1 x6 = Ok y1 ∧
        HybridSequential_forward extra2 y1 = Ok y2 ∧
        out !! "ARM_features" = Some [Some n4; Some n5; Some y1; Some y2].
Proof.
  split; [exact vgg16_init|].
  exact (ARM_features_order _ _ _ _ _ _ _ vgg16_init eq_refl).
Defined.

(** C5: each of the 3 transition branches is a 3x3 stride-1 padding-1
    convolution to 256 channels, batch normalisation if [batch_norm], ReLU, a
    second 3x3 stride-1 padding-1 convolution to 256 channels and batch
    normalisation if [batch_norm]; the branch does not end with an
    activation. *)
Theorem transitions_architecture (layers filters : list Z)
    (cfg : list (list extra_conv)) (batch_norm : bool) s s'
    (net : VGGAtrousExtractor) :
  VGGAtrousExtractor_init layers filters cfg batch_norm s = (s', Ok net) →
  length (transitions net) = 3%nat ∧
  ∀ t, t ∈ transitions net →
    arch t = [AConv 256 (3, 3) (1, 1) (1, 1) (1, 1)] ++
             batch_norm_arch batch_norm ++
             [AAct "relu"; AConv 256 (3, 3) (1, 1) (1, 1) (1, 1)] ++
             batch_norm_arch batch_norm ∧
    ∀ act_type, last (arch t) ≠ Some (AAct act_type).
Proof.
  intros Hbuild.
  apply VGGAtrousExtractor_init_inv in Hbuild as (_ & _ & _ & _ & _ & Htr & _).
  split.
  - apply (f_equal length) in Htr. by rewrite length_fmap in Htr.
  - intros t Ht.
    assert (arch t ∈ arch <$> transitions net) as Hin by by apply list_elem_of_fmap_2.
    rewrite Htr in Hin. apply elem_of_replicate in Hin as [-> _].
    split; [done|]. intros act_type. by destruct batch_norm.
Qed.

Lemma transitions_architecture_witness :
  VGGAtrousExtractor_init [2; 2; 3; 3; 3] [64; 128; 256; 512; 512]
    [[(256, 1, 1, 0); (512, 3, 2, 1)]; [(128, 1, 1, 0); (256, 3, 2, 1)]]
    false empty_state = (vgg16_state, Ok vgg16_net) ∧
  length (transitions vgg16_net) = 3%nat ∧
  ∀ t, t ∈ transitions vgg16_net →
    arch t = [AConv 256 (3, 3) (1, 1) (1, 1) (1, 1)] ++
             batch_norm_arch false ++
             [AAct "relu"; AConv 256 (3, 3) (1, 1) (1, 1) (1, 1)] ++
             batch_norm_arch false ∧
    ∀ act_type, last (arch t) ≠ Some (AAct act_type).
Proof.
  split; [exact vgg16_init|].
  exact (transitions_architecture _ _ _ _ _ _ _ vgg16_init).
Defined.

Lemma extra_spec_320_512 : dict_getitem extra_spec 320 = dict_getitem extra_spec 512.
Proof. vm_compute. exact eq_refl. Qed.

(** C9: the extra-stage presets for 320 and 512 are the same, so for the same
    [num_layers] and keyword arguments the two input sizes construct the same
    network (and [vgg16_atrous_320] the same as [vgg16_atrous_512]); it has two
    extra stages: a 1x1 convolution to 256 channels then a 3x3 stride-2
    padding-1 convolution to 512 channels, and a 1x1 convolution to 128
    channels then a 3x3 stride-2 padding-1 convolution to 256 channels (each
    convolution followed by batch normalisation if [batch_norm], and ReLU). *)
Theorem extra_presets_identical (store : ModelStore) (num_layers : Z)
    (pretrained : option string) (batch_norm : bool) (s : BuildState) :
  extra_spec !! 320 = extra_spec !! 512 ∧
  get_vgg_atrous_extractor store num_layers 320 pretrained batch_norm s =
    get_vgg_atrous_extractor store num_layers 512 pretrained batch_norm s ∧
  vgg16_atrous_320 store pretrained batch_norm s =
    vgg16_atrous_512 store pretrained batch_norm s ∧
  ∀ im_size s' net, im_size = 320 ∨ im_size = 512 →
    get_vgg_atrous_extractor store num_layers im_size pretrained batch_norm s
      = (s', Ok net) →
    arch <$> extras net =
      [ [AConv 256 (1, 1) (1, 1) (0, 0) (1, 1)] ++ batch_norm_arch batch_norm ++
        [AAct "relu"; AConv 512 (3, 3) (2, 2) (1, 1) (1, 1)] ++
        batch_norm_arch batch_norm ++ [AAct "relu"];
        [AConv 128 (1, 1) (1, 1) (0, 0) (1, 1)] ++ batch_norm_arch batch_norm ++
        [AAct "relu"; AConv 256 (3, 3) (2, 2) (1, 1) (1, 1)] ++
        batch_norm_arch batch_norm ++ [AAct "relu"] ].
Proof.
  split; [vm_compute; exact eq_refl|].
  split; [unfold get_vgg_atrous_extractor; by rewrite extra_spec_320_512|].
  split.
  { unfold vgg16_atrous_320, vgg16_atrous_512, get_vgg_atrous_extractor.
    by rewrite extra_spec_320_512. }
  intros im_size s' net Him Hbuild.
  assert (dict_getitem extra_spec im_size =
          Ok [[(256, 1, 1, 0); (512, 3, 2, 1)]; [(128, 1, 1, 0); (256, 3, 2, 1)]])
    as Hpreset.
  { destruct Him as [-> | ->]; vm_compute; exact eq_refl. }
  unfold get_vgg_atrous_extractor in Hbuild. rewrite Hpreset in Hbuild.
  apply Build_bind_Ok in Hbuild as (s1 & [layers filters] & _ & Hbuild).
  apply Build_bind_Ok in Hbuild as (s2 & cfg & Hcfg & Hbuild).
  injection Hcfg as _ <-.
  apply Build_bind_Ok in Hbuild as (s3 & net' & Hinit & Hbuild).
  apply VGGAtrousExtractor_init_inv in Hinit as (_ & _ & _ & _ & Harch & _).
  assert (net = net') as ->.
  { destruct pretrained as [tag|].
    - apply Build_bind_Ok in Hbuild as (s4 & [] & _ & Hbuild).
      apply Build_bind_Ok in Hbuild as (s5 & file & _ & Hbuild).
      apply Build_bind_Ok in Hbuild as (s6 & [] & _ & Hbuild).
      by injection Hbuild as _ <-.
    - by injection Hbuild as _ <-. }
  rewrite Harch. by destruct batch_norm.
Qed.

Lemma extra_presets_identical_witness :
  vgg16_atrous_320 no_store None false empty_state = (vgg16_state, Ok vgg16_net) ∧
  vgg16_atrous_512 no_store None false empty_state = (vgg16_state, Ok vgg16_net) ∧
  arch <$> extras vgg16_net =
    [ [AConv 256 (1, 1) (1, 1) (0, 0) (1, 1); AAct "relu";
       AConv 512 (3, 3) (2, 2) (1, 1) (1, 1); AAct "relu"];
      [AConv 128 (1, 1) (1, 1) (0, 0) (1, 1); AAct "relu";
       AConv 256 (3, 3) (2, 2) (1, 1) (1, 1); AAct "relu"] ].
Proof.
  pose proof (extra_presets_identical no_store 16 None false empty_state)
    as (_ & _ & Hsame & Harch).
  split; [exact vgg16_built|].
  split; [rewrite <- Hsame; exact vgg16_built|].
  exact (Harch 320 vgg16_state vgg16_net (or_introl eq_refl) vgg16_built).
Defined.

(** The four presets of [vgg_spec] have five stages. *)
Lemma vgg_spec_five (num_layers : Z) (layers filters : list Z) :
  vgg_spec !! num_layers = Some (layers, filters) →
  length layers = 5%nat ∧ length filters = 5%nat.
Proof.
  unfold vgg_spec. intros Hk.
  repeat (apply lookup_insert_Some in Hk as [[_ Hk]|[_ Hk]];
          [by injection Hk as <- <-|]).
  by rewrite lookup_empty in Hk.
Qed.




(** When the operators before the loop succeed, a forward pass without extra
    stages raises at the first read of the top-down loop:
    [ARM_features[2]] does not exist. *)
Lemma no_extras_IndexError {T : Type} `{TensorEngine T}
    (self : VGGAtrousExtractor) (x init_scale x4 n4 x6 n5 p6 : T) :
  extras self = [] →
  length (stages (base self)) = 6%nat →
  conv4_3 self x init_scale = Ok x4 →
  Normalize_forward (norm4 (base self)) x4 = Ok n4 →
  conv_fc7 self x4 = Ok x6 →
  Normalize_forward (norm5 (base self)) x6 = Ok n5 →
  HybridSequential_forward (last_layer_trans self) n5 = Ok p6 →
  hybrid_forward self x init_scale = Raise IndexError.
Proof.
  intros Hextras Hstages H4 Hn4 H6 Hn5 Hp6.
  unfold conv4_3, conv_fc7, run_stage in H4, H6. unfold hybrid_forward.
  destruct (stages (base self)) as [|s0 [|s1 [|s2 [|s3 [|s4 [|s5 [|]]]]]]];
    try discriminate Hstages.
  change (getitem [s0; s1; s2; s3; s4; s5] 0) with (Ok s0) in *.
  change (getitem [s0; s1; s2; s3; s4; s5] 1) with (Ok s1) in *.
  change (getitem [s0; s1; s2; s3; s4; s5] 2) with (Ok s2) in *.
  change (getitem [s0; s1; s2; s3; s4; s5] 3) with (Ok s3) in *.
  change (getitem [s0; s1; s2; s3; s4; s5] 4) with (Ok s4) in *.
  change (getitem [s0; s1; s2; s3; s4; s5] 5) with (Ok s5) in *.
  apply bind_Ok in H4 as (x0 & Hx0 & H4).
  apply bind_Ok in H4 as (y0 & Hy0 & H4). apply bind_Ok in H4 as (x1 & Hx1 & H4).
  apply bind_Ok in H4 as (y1 & Hy1 & H4). apply bind_Ok in H4 as (x2 & Hx2 & H4).
  apply bind_Ok in H4 as (y2 & Hy2 & H4). apply bind_Ok in H4 as (x3 & Hx3 & H4).
  apply bind_Ok in H6 as (x5 & Hx5 & H6). apply bind_Ok in H6 as (y5 & Hy5 & H6).
  apply bind_Ok in H6 as (z5 & Hz5 & H6).
  cbn in Hy0, Hy1, Hy2, H4, Hy5, H6.
  rewrite Hx0, Hextras. cbn. rewrite Hy0. cbn. rewrite Hx1. cbn. rewrite Hy1. cbn.
  rewrite Hx2. cbn. rewrite Hy2. cbn. rewrite Hx3. cbn. rewrite H4. cbn.
  rewrite Hn4. cbn. fold (mk_outputs (T:=T) [] []).
  rewrite outputs_append_ARM. cbn. rewrite Hx5. cbn. rewrite Hy5. cbn.
  rewrite Hz5. cbn. rewrite H6. cbn. rewrite Hn5. cbn.
  rewrite outputs_append_ARM. cbn. rewrite insert_ODM.
  rewrite outputs_getitem_ARM. rewrite getitem_last. cbn. rewrite Hp6. cbn.
  rewrite outputs_setitem_ODM.
  change (setitem [None; None; None; None] (-1) (Some p6))
    with (Ok [None; None; None; Some p6]).
  change (assert (bool_decide (6%nat = 6%nat))) with (Ok ()).
  cbn. rewrite outputs_getitem_ODM, outputs_getitem_ARM.
  change (getitem [None; None; None; Some p6] 3) with (Ok (Some p6)).
  cbn. rewrite getitem_nonneg by lia. done.
Qed.

(** C10, as stated, fails for a configuration with one extra stage: the
    loop reads [ARM_features] at -1, 2, 1 and 0, all of which exist in a list
    of three; composing the graph succeeds and returns 3 ARM features and 4
    ODM features. *)
Lemma one_extra_reads_in_range :
  VGGAtrousExtractor_init [2; 2; 3; 3; 3] [64; 128; 256; 512; 512]
    [[(256, 1, 1, 0); (512, 3, 2, 1)]] false empty_state
    = (one_extra_state, Ok one_extra_net) ∧
  length (extras one_extra_net) = 1%nat ∧
  hybrid_forward one_extra_net (Symbol.var "data") (Symbol.param 0)
    = Ok one_extra_out ∧
  length <$> one_extra_out !! "ARM_features" = Some 3%nat ∧
  length <$> one_extra_out !! "ODM_features" = Some 4%nat ∧
  hybrid_forward one_extra_net (Symbol.var "data") (Symbol.param 0)
    ≠ Raise IndexError.
Proof.
  assert (hybrid_forward one_extra_net (Symbol.var "data") (Symbol.param 0)
          = Ok one_extra_out) as Hfwd by (vm_compute; exact eq_refl).
  split; [vm_compute; exact eq_refl|]. split; [reflexivity|].
  split; [exact Hfwd|].
  split; [vm_compute; exact eq_refl|]. split; [vm_compute; exact eq_refl|].
  rewrite Hfwd. discriminate.
Qed.

(** C10, amended: the forward pass appends one ARM feature per extra stage
    after the two normalised base features, so [len(ARM_features)] is
    2 + [len(extras)]; the ODM list has 4 slots whatever the extras are, and
    is built from [ARM_features[-1]] (the deepest ARM feature) and from
    [ARM_features] at 2, 1 and 0; so a result that is returned has 4 tensors
    in both lists exactly when there are 2 extra stages, and without any
    extra stage the top-down loop reads [ARM_features[2]] out of range: the
    forward pass never returns, and raises IndexError once the operators
    before the loop have succeeded. *)
Theorem ARM_length_and_ODM_slots {T : Type} `{TensorEngine T}
    (self : VGGAtrousExtractor) (x init_scale : T) :
  (∀ out, hybrid_forward self x init_scale = Ok out →
     ∃ (arm odm : list T) deepest a2 p6,
       out !! "ARM_features" = Some (Some <$> arm) ∧
       length arm = (2 + length (extras self))%nat ∧
       out !! "ODM_features" = Some (Some <$> odm) ∧
       length odm = 4%nat ∧
       last arm = Some deepest ∧ arm !! 2%nat = Some a2 ∧
       HybridSequential_forward (last_layer_trans self) deepest = Ok p6 ∧
       odm !! 3%nat = Some p6 ∧
       (length arm = 4%nat ∧ length odm = 4%nat ↔ length (extras self) = 2%nat)) ∧
  (extras self = [] →
     (∀ out, hybrid_forward self x init_scale ≠ Ok out) ∧
     ∀ x4 n4 x6 n5 p6,
       length (stages (base self)) = 6%nat →
       conv4_3 self x init_scale = Ok x4 →
       Normalize_forward (norm4 (base self)) x4 = Ok n4 →
       conv_fc7 self x4 = Ok x6 →
       Normalize_forward (norm5 (base self)) x6 = Ok n5 →
       HybridSequential_forward (last_layer_trans self) n5 = Ok p6 →
       hybrid_forward self x init_scale = Raise IndexError).
Proof.
  split.
  - intros out Hfwd.
    apply hybrid_forward_inv in Hfwd
      as (_ & x4 & x6 & n4 & n5 & ys & deepest & a2 & p6 & p5 & p4 & p3 & o3 & o4
          & o5 & _ & _ & _ & _ & _ & Hlen & Hlast & Hys0 & Hp6 & _ & _ & _ & _ & _
          & _ & ->).
    exists ([n4; n5] ++ ys), [o3; o4; o5; p6], deepest, a2, p6.
    rewrite mk_outputs_lookup_ARM, mk_outputs_lookup_ODM.
    rewrite length_app, Hlen. cbn [length].
    repeat split; try done; lia.
  - intros Hextras. split.
    + intros out Hfwd.
      apply hybrid_forward_inv in Hfwd
        as (_ & x4 & x6 & n4 & n5 & ys & deepest & a2 & p6 & p5 & p4 & p3 & o3 & o4
            & o5 & _ & _ & _ & _ & _ & Hlen & _ & Hys0 & _).
      rewrite Hextras in Hlen. by destruct ys.
    + intros x4 n4 x6 n5 p6 Hstages H4 Hn4 H6 Hn5 Hp6.
      by eapply no_extras_IndexError.
Qed.

Lemma ARM_length_and_ODM_slots_witness :
  (hybrid_forward vgg16_net [1; 3; 320; 320] [1; 3; 1; 1] = Ok vgg16_out ∧
   ∃ (arm odm : list Shape.t) deepest a2 p6,
     vgg16_out !! "ARM_features" = Some (Some <$> arm) ∧
     length arm = (2 + length (extras vgg16_net))%nat ∧
     vgg16_out !! "ODM_features" = Some (Some <$> odm) ∧
     length odm = 4%nat ∧
     last arm = Some deepest ∧ arm !! 2%nat = Some a2 ∧
     HybridSequential_forward (last_layer_trans vgg16_net) deepest = Ok p6 ∧
     odm !! 3%nat = Some p6 ∧
     (length arm = 4%nat ∧ length odm = 4%nat ↔ length (extras vgg16_net) = 2%nat)) ∧
  (extras no_extras_net = [] ∧
   hybrid_forward (H0:=Shape.engine (params no_extras_state)) no_extras_net
     [1; 3; 320; 320] [1; 3; 1; 1] = Raise IndexError).
Proof.
  split.
  - split; [exact vgg16_forward|].
    exact (proj1 (ARM_length_and_ODM_slots vgg16_net [1; 3; 320; 320] [1; 3; 1; 1])
             vgg16_out vgg16_forward).
  - split; [reflexivity|].
    refine (proj2 (proj2 (ARM_length_and_ODM_slots
                     (H0:=Shape.engine (params no_extras_state)) no_extras_net
                     [1; 3; 320; 320] [1; 3; 1; 1]) eq_refl)
              [1; 512; 40; 40] [1; 512; 40; 40] [1; 1024; 20; 20]
              [1; 1024; 20; 20] [1; 256; 20; 20] eq_refl _ _ _ _ _);
      vm_compute; exact eq_refl.
Defined.

(** ** Further properties of the factory and of the constructors *)

Lemma vgg_spec_None (num_layers : Z) :
  num_layers ∉ [11; 13; 16; 19] → vgg_spec !! num_layers = None.
Proof.
  intros Hk. unfold vgg_spec.
  do 4 (rewrite lookup_insert_ne by (intros <-; apply Hk; set_solver)).
  apply lookup_empty.
Qed.

Lemma extra_spec_None (im_size : Z) :
  im_size ∉ [320; 512] → extra_spec !! im_size = None.
Proof.
  intros Hk. unfold extra_spec.
  do 2 (rewrite lookup_insert_ne by (intros <-; apply Hk; set_solver)).
  apply lookup_empty.
Qed.

Lemma vgg_spec_Some (num_layers : Z) :
  num_layers ∈ [11; 13; 16; 19] →
  ∃ layers, vgg_spec !! num_layers = Some (layers, [64; 128; 256; 512; 512]) ∧
    length layers = 5%nat.
Proof.
  intros Hk. repeat (apply elem_of_cons in Hk as [-> | Hk]);
    [eexists; split; [vm_compute; reflexivity|done]..|].
  by apply elem_of_nil in Hk.
Qed.

Lemma extra_spec_Some (im_size : Z) :
  im_size ∈ [320; 512] →
  dict_getitem extra_spec im_size =
    Ok [[(256, 1, 1, 0); (512, 3, 2, 1)]; [(128, 1, 1, 0); (256, 3, 2, 1)]].
Proof.
  intros Hk. repeat (apply elem_of_cons in Hk as [-> | Hk]);
    [vm_compute; reflexivity..|].
  by apply elem_of_nil in Hk.
Qed.

(** X1: an unsupported [num_layers] or [im_size] makes
    [get_vgg_atrous_extractor] raise KeyError at the lookup in the preset
    table, before anything is constructed: no block has been created and no
    parameter allocated. *)
Theorem unsupported_preset_KeyError (store : ModelStore) (num_layers im_size : Z)
    (pretrained : option string) (batch_norm : bool) (s : BuildState) :
  num_layers ∉ [11; 13; 16; 19] ∨ im_size ∉ [320; 512] →
  get_vgg_atrous_extractor store num_layers im_size pretrained batch_norm s
    = (s, Raise KeyError).
Proof.
  intros Hkey. unfold get_vgg_atrous_extractor.
  destruct (decide (num_layers ∈ [11; 13; 16; 19])) as [Hin|Hnot].
  - destruct Hkey as [Hkey|Hkey]; [done|].
    apply vgg_spec_Some in Hin as (layers & Hl & _).
    assert (lift (dict_getitem vgg_spec num_layers) s
            = (s, Ok (layers, [64; 128; 256; 512; 512]))) as H1
      by (unfold lift, dict_getitem; by rewrite Hl).
    rewrite (Build_bind_step _ _ _ _ _ H1). cbv beta iota.
    apply Build_bind_Raise. unfold lift, dict_getitem.
    by rewrite (extra_spec_None _ Hkey).
  - apply Build_bind_Raise. unfold lift, dict_getitem.
    by rewrite (vgg_spec_None _ Hnot).
Qed.

Lemma unsupported_preset_KeyError_witness :
  get_vgg_atrous_extractor no_store 18 320 None false empty_state
    = (empty_state, Raise KeyError) ∧
  get_vgg_atrous_extractor no_store 16 300 None false empty_state
    = (empty_state, Raise KeyError).
Proof.
  split.
  - apply (unsupported_preset_KeyError no_store 18 320 None false empty_state).
    left. refine (bool_decide_unpack _ _); exact I.
  - apply (unsupported_preset_KeyError no_store 16 300 None false empty_state).
    right. refine (bool_decide_unpack _ _); exact I.
Defined.

(** X2: for every supported [num_layers] and [im_size], with or without
    batch normalisation and from any state, [get_vgg_atrous_extractor]
    without pretrained weights succeeds, and the network has 6 base stages,
    2 extra stages, 3 transition branches and 3 fusion blocks. *)
Theorem supported_preset_builds (store : ModelStore) (num_layers im_size : Z)
    (batch_norm : bool) (s : BuildState) :
  num_layers ∈ [11; 13; 16; 19] → im_size ∈ [320; 512] →
  ∃ s' net,
    get_vgg_atrous_extractor store num_layers im_size None batch_norm s
      = (s', Ok net) ∧
    length (stages (base net)) = 6%nat ∧
    length (extras net) = 2%nat ∧
    length (transitions net) = 3%nat ∧
    length (fusions net) = 3%nat.
Proof.
  intros Hn Hi.
  apply vgg_spec_Some in Hn as (layers & Hl & Hlen).
  apply extra_spec_Some in Hi.
  unfold get_vgg_atrous_extractor.
  destruct (VGGAtrousExtractor_init_total layers [64; 128; 256; 512; 512]
              [[(256, 1, 1, 0); (512, 3, 2, 1)]; [(128, 1, 1, 0); (256, 3, 2, 1)]]
              batch_norm Hlen ltac:(cbn; lia) s) as (s' & net & Hbuild).
  exists s', net. split.
  - assert (lift (dict_getitem vgg_spec num_layers) s
            = (s, Ok (layers, [64; 128; 256; 512; 512]))) as H1
      by (unfold lift, dict_getitem; by rewrite Hl).
    assert (lift (dict_getitem extra_spec im_size) s
            = (s, Ok [[(256, 1, 1, 0); (512, 3, 2, 1)];
                      [(128, 1, 1, 0); (256, 3, 2, 1)]])) as H2
      by (unfold lift; by rewrite Hi).
    rewrite (Build_bind_step _ _ _ _ _ H1). cbv beta iota.
    rewrite (Build_bind_step _ _ _ _ _ H2).
    rewrite (Build_bind_step _ _ _ _ _ Hbuild). done.
  - apply VGGAtrousExtractor_init_inv in Hbuild
      as (s1 & Hbase & _ & Hextras & _ & Htr & Hfu & _).
    apply VGGAtrousBase_init_inv in Hbase as (_ & Hstages & _).
    split; [by rewrite Hstages, Hlen|]. split; [done|].
    apply (f_equal length) in Htr, Hfu. rewrite length_fmap in Htr, Hfu.
    done.
Qed.

Lemma supported_preset_builds_witness :
  ∃ s' net,
    get_vgg_atrous_extractor no_store 19 512 None true empty_state = (s', Ok net) ∧
    length (stages (base net)) = 6%nat ∧
    length (extras net) = 2%nat ∧
    length (transitions net) = 3%nat ∧
    length (fusions net) = 3%nat.
Proof.
  apply (supported_preset_builds no_store 19 512 true empty_state);
    refine (bool_decide_unpack _ _); exact I.
Defined.

Lemma raises_lift {A} (e : exn) : raises (A:=A) e (lift (Raise e)).
Proof. intros s. by exists s. Qed.

Lemma raises_bind_l {A B} (e : exn) (m : Build A) (k : A → Build B) :
  raises e m → raises e (m ≫= k).
Proof. intros Hm s. destruct (Hm s) as (s' & Hs). exists s'. by apply Build_bind_Raise. Qed.

Lemma raises_bind_r {A B} (e : exn) (m : Build A) (k : A → Build B) :
  total m → (∀ a, raises e (k a)) → raises e (m ≫= k).
Proof.
  intros Hm Hk s. destruct (Hm s) as (s1 & a & H1).
  rewrite (Build_bind_step _ _ _ _ _ H1). apply Hk.
Qed.





(** ** The architecture that the constructors build *)

Lemma join_singletons {A B} (g : A → B) (l : list A) :
  mjoin ((λ a, [g a]) <$> l) = g <$> l.
Proof.
  induction l as [|a l IH]; [done|].
  rewrite !fmap_cons. cbn [mjoin list_join app]. f_equal. exact IH.
Qed.

Lemma fmap_const_range {B} (c : B) (n : Z) :
  (λ _, c) <$> range n = replicate (Z.to_nat n) c.
Proof.
  unfold range. rewrite <- list_fmap_compose.
  rewrite (const_fmap _ _ c) by done. by rewrite length_seq.
Qed.

Lemma VGGAtrousBase_init_arch (layers filters : list Z) (batch_norm : bool)
    s s' (b : VGGAtrousBase) :
  VGGAtrousBase_init layers filters batch_norm s = (s', Ok b) →
  arch <$> stages b =
    ((λ lf, stage_arch batch_norm lf.1 lf.2) <$> zip layers filters) ++
    [dilated_arch batch_norm].
Proof.
  unfold VGGAtrousBase_init. intros H.
  apply Build_bind_Ok in H as (s1 & [] & _ & H).
  apply Build_bind_Ok in H as (s2 & isc & _ & H).
  apply Build_bind_Ok in H as (s3 & [] & _ & H).
  apply Build_bind_Ok in H as (s4 & sts & Hstages & H).
  apply (for_each_Build_trace (fmap arch)
           (λ lf, [stage_arch batch_norm lf.1 lf.2])) in Hstages.
  2:{ intros acc [l f] t t' acc' Hbody.
      apply Build_bind_Ok in Hbody as (t1 & stage & Hnew & Hbody).
      apply Build_bind_Ok in Hbody as (t2 & stage' & Hinner & Hbody).
      injection Hbody as _ <-. injection Hnew as _ <-.
      rewrite fmap_app. cbn. do 2 f_equal.
      apply (for_each_Build_trace arch (λ _,
               [AConv f (3, 3) (1, 1) (1, 1) (1, 1)] ++
               batch_norm_arch batch_norm ++ [AAct "relu"])) in Hinner.
      - rewrite Hinner. cbn. unfold stage_arch. by rewrite fmap_const_range.
      - clear. intros acc i s s' acc' Hbody.
        destruct batch_norm; cbv -[app length int2] in Hbody;
          injection Hbody as _ <-.
        all: unfold arch; cbn [children prefix]; rewrite !fmap_app; cbn.
        all: by rewrite <- ?app_assoc. }
  cbn in Hstages. rewrite join_singletons in Hstages.
  apply Build_bind_Ok in H as (s5 & stage & Hs5 & H).
  injection Hs5 as _ <-.
  apply Build_bind_Ok in H as (s6 & conv & Hs6 & H).
  injection Hs6 as _ <-.
  apply Build_bind_Ok in H as (s7 & stage7 & Hs7 & H).
  apply Build_bind_Ok in H as (s8 & relu & Hs8 & H).
  injection Hs8 as _ <-.
  apply Build_bind_Ok in H as (s9 & conv9 & Hs9 & H).
  injection Hs9 as _ <-.
  apply Build_bind_Ok in H as (s10 & stage10 & Hs10 & H).
  apply Build_bind_Ok in H as (s11 & relu11 & Hs11 & H).
  injection Hs11 as _ <-.
  apply Build_bind_Ok in H as (s12 & f3 & _ & H).
  apply Build_bind_Ok in H as (s13 & n4 & _ & H).
  apply Build_bind_Ok in H as (s14 & n5 & _ & H).
  injection H as _ <-. cbn [stages].
  rewrite fmap_app, Hstages. f_equal.
  destruct batch_norm; cbv -[app length int2] in Hs7; injection Hs7 as _ <-;
    cbv -[app length int2] in Hs10; injection Hs10 as _ <-; reflexivity.
Qed.

Lemma lookup_zip {A B} (l : list A) (k : list B) (i : nat) (a : A) (b : B) :
  l !! i = Some a → k !! i = Some b → zip l k !! i = Some (a, b).
Proof.
  revert k i. induction l as [|a' l IH]; intros [|b' k] [|i]; cbn; try done.
  - by intros [= ->] [= ->].
  - apply IH.
Qed.

(** X5: stage [i] of the base network is [layers[i]] repetitions of a 3x3
    padding-1 convolution to [filters[i]] channels, batch normalisation if
    [batch_norm], and ReLU (empty when [layers[i] <= 0]); the last stage is
    the dilated one: a 3x3 convolution to 1024 channels with padding 6 and
    dilation 6, then a 1x1 convolution to 1024 channels, each followed by the
    optional batch normalisation and ReLU. *)
Theorem base_architecture (layers filters : list Z)
    (cfg : list (list extra_conv)) (batch_norm : bool) s s'
    (net : VGGAtrousExtractor) :
  VGGAtrousExtractor_init layers filters cfg batch_norm s = (s', Ok net) →
  (∀ i l f, layers !! i = Some l → filters !! i = Some f →
     ∃ stage, stages (base net) !! i = Some stage ∧
       arch stage =
         mjoin (replicate (Z.to_nat l)
                  ([AConv f (3, 3) (1, 1) (1, 1) (1, 1)] ++
                   batch_norm_arch batch_norm ++ [AAct "relu"]))) ∧
  ∃ dilated, last (stages (base net)) = Some dilated ∧
    stages (base net) !! length layers = Some dilated ∧
    arch dilated =
      [AConv 1024 (3, 3) (1, 1) (6, 6) (6, 6)] ++ batch_norm_arch batch_norm ++
      [AAct "relu"; AConv 1024 (1, 1) (1, 1) (0, 0) (1, 1)] ++
      batch_norm_arch batch_norm ++ [AAct "relu"].
Proof.
  intros Hbuild.
  apply VGGAtrousExtractor_init_inv in Hbuild as (s1 & Hbase & _).
  pose proof (VGGAtrousBase_init_arch _ _ _ _ _ _ Hbase) as Harch.
  apply VGGAtrousBase_init_inv in Hbase as (Hlen & Hstages & _).
  split.
  - intros i l f Hl Hf.
    assert ((arch <$> stages (base net)) !! i = Some (stage_arch batch_norm l f))
      as Hi.
    { rewrite Harch, lookup_app_l.
      - rewrite list_lookup_fmap, (lookup_zip _ _ _ _ _ Hl Hf). done.
      - rewrite length_fmap, length_zip by done. by eapply lookup_lt_Some. }
    rewrite list_lookup_fmap in Hi.
    destruct (stages (base net) !! i) as [stage|]; [|done].
    exists stage. split; [done|]. by injection Hi.
  - assert ((arch <$> stages (base net)) !! length layers
            = Some (dilated_arch batch_norm)) as Hd.
    { rewrite Harch, lookup_app_r; rewrite length_fmap, length_zip by done; [|done].
      by rewrite Nat.sub_diag. }
    rewrite list_lookup_fmap in Hd.
    destruct (stages (base net) !! length layers) as [dilated|] eqn:E; [|done].
    exists dilated. split; [|split; [done|by injection Hd]].
    rewrite last_lookup, Hstages. done.
Qed.

Lemma base_architecture_witness :
  VGGAtrousExtractor_init [2; 2; 3; 3; 3] [64; 128; 256; 512; 512]
    [[(256, 1, 1, 0); (512, 3, 2, 1)]; [(128, 1, 1, 0); (256, 3, 2, 1)]]
    false empty_state = (vgg16_state, Ok vgg16_net) ∧
  ∃ stage, stages (base vgg16_net) !! 2%nat = Some stage ∧
    arch stage =
      mjoin (replicate (Z.to_nat 3)
               ([AConv 256 (3, 3) (1, 1) (1, 1) (1, 1)] ++
                batch_norm_arch false ++ [AAct "relu"])).
Proof.
  split; [exact vgg16_init|].
  exact (proj1 (base_architecture _ _ _ _ _ _ _ vgg16_init) 2%nat 3 256
           eq_refl eq_refl).
Defined.

(** X6: [last_layer_trans] is one sequential block of 3 repetitions of a 3x3
    stride-1 padding-1 convolution to 256 channels, the optional batch
    normalisation and ReLU; there are 3 fusion blocks, each a single such
    repetition. *)
Theorem last_layer_trans_and_fusions (layers filters : list Z)
    (cfg : list (list extra_conv)) (batch_norm : bool) s s'
    (net : VGGAtrousExtractor) :
  VGGAtrousExtractor_init layers filters cfg batch_norm s = (s', Ok net) →
  prefix (last_layer_trans net) = "trans_last_layer" ∧
  arch (last_layer_trans net) =
    mjoin (replicate 3 ([AConv 256 (3, 3) (1, 1) (1, 1) (1, 1)] ++
                        batch_norm_arch batch_norm ++ [AAct "relu"])) ∧
  length (fusions net) = 3%nat ∧
  ∀ fusion, fusion ∈ fusions net →
    arch fusion = [AConv 256 (3, 3) (1, 1) (1, 1) (1, 1)] ++
                  batch_norm_arch batch_norm ++ [AAct "relu"].
Proof.
  intros Hbuild. pose proof Hbuild as Hprefix.
  apply VGGAtrousExtractor_init_inv in Hbuild as (_ & _ & _ & _ & _ & _ & Hfu & Hllt).
  split.
  { unfold VGGAtrousExtractor_init in Hprefix.
    apply Build_bind_Ok in Hprefix as (s1 & b & _ & H).
    apply Build_bind_Ok in H as (s2 & [] & _ & H).
    apply Build_bind_Ok in H as (s3 & ex & _ & H).
    destruct batch_norm; vm_compute in H; by injection H as _ <-. }
  split; [done|]. split.
  - apply (f_equal length) in Hfu. by rewrite length_fmap in Hfu.
  - intros fusion Hin.
    assert (arch fusion ∈ arch <$> fusions net) as Hin' by by apply list_elem_of_fmap_2.
    rewrite Hfu in Hin'. by apply elem_of_replicate in Hin' as [-> _].
Qed.

Lemma last_layer_trans_and_fusions_witness :
  prefix (last_layer_trans vgg16_net) = "trans_last_layer" ∧
  arch (last_layer_trans vgg16_net) =
    mjoin (replicate 3 ([AConv 256 (3, 3) (1, 1) (1, 1) (1, 1)] ++
                        batch_norm_arch false ++ [AAct "relu"])) ∧
  length (fusions vgg16_net) = 3%nat ∧
  ∀ fusion, fusion ∈ fusions vgg16_net →
    arch fusion = [AConv 256 (3, 3) (1, 1) (1, 1) (1, 1)] ++
                  batch_norm_arch false ++ [AAct "relu"].
Proof. exact (last_layer_trans_and_fusions _ _ _ _ _ _ _ vgg16_init). Defined.

(** X7: the constructor builds one extra stage per entry of [extras], in
    order; the stage built from an entry holds, for each (filters, kernel,
    stride, padding) of the entry, a convolution with these attributes, the
    optional batch normalisation and ReLU.  An empty configuration gives no
    extra stage, an empty entry an empty stage. *)
Theorem extras_architecture (layers filters : list Z)
    (cfg : list (list extra_conv)) (batch_norm : bool) s s'
    (net : VGGAtrousExtractor) :
  VGGAtrousExtractor_init layers filters cfg batch_norm s = (s', Ok net) →
  length (extras net) = length cfg ∧
  ∀ i config, cfg !! i = Some config →
    ∃ extra, extras net !! i = Some extra ∧
      arch extra =
        mjoin ((λ '(f, k, s, p),
                  [AConv f (k, k) (s, s) (p, p) (1, 1)] ++
                  batch_norm_arch batch_norm ++ [AAct "relu"]) <$> config).
Proof.
  intros Hbuild.
  apply VGGAtrousExtractor_init_inv in Hbuild as (_ & _ & _ & Hlen & Harch & _).
  split; [done|]. intros i config Hi.
  assert ((arch <$> extras net) !! i = Some (extra_arch batch_norm config)) as Hi'.
  { rewrite Harch, list_lookup_fmap. unfold extra_conv in *. by rewrite Hi. }
  rewrite list_lookup_fmap in Hi'.
  destruct (extras net !! i) as [extra|]; [|done].
  exists extra. split; [done|]. by injection Hi'.
Qed.

Lemma extras_architecture_witness :
  length (extras vgg16_net) = 2%nat ∧
  ∃ extra, extras vgg16_net !! 1%nat = Some extra ∧
    arch extra =
      mjoin ((λ '(f, k, s, p),
                [AConv f (k, k) (s, s) (p, p) (1, 1)] ++
                batch_norm_arch false ++ [AAct "relu"]) <$>
             [(128, 1, 1, 0); (256, 3, 2, 1)]).
Proof.
  pose proof (extras_architecture _ _ _ _ _ _ _ vgg16_init) as [Hlen Harch].
  split; [exact Hlen|]. exact (Harch 1%nat _ eq_refl).
Defined.

Lemma discipline_block (batch_norm : bool) (f : Z) (k st p d : Z * Z)
    (rest : list Arch) :
  batch_norm_discipline batch_norm
    (([AConv f k st p d] ++ batch_norm_arch batch_norm ++ [AAct "relu"]) ++ rest)
  = batch_norm_discipline batch_norm rest.
Proof. by destruct batch_norm. Qed.

Lemma discipline_blocks (batch_norm : bool) (blocks : list (list Arch)) :
  Forall (λ b, ∃ f k st p d,
            b = [AConv f k st p d] ++ batch_norm_arch batch_norm ++ [AAct "relu"])
         blocks →
  batch_norm_discipline batch_norm (mjoin blocks) = true.
Proof.
  induction 1 as [|b blocks (f & k & st & p & d & ->) _ IH]; [done|].
  change (mjoin (?b :: ?bs)) with (b ++ mjoin bs).
  by rewrite discipline_block.
Qed.

(** X8: batch normalisation is all or nothing.  In every sequential block of
    a constructed network (base stages, extra stages, [last_layer_trans],
    transition branches, fusion blocks) a BatchNorm layer stands only right
    after a convolution, and a convolution is followed by one exactly when
    [batch_norm] is set; without [batch_norm] the network holds no BatchNorm
    layer at all. *)
Theorem batch_norm_all_or_nothing (layers filters : list Z)
    (cfg : list (list extra_conv)) (batch_norm : bool) s s'
    (net : VGGAtrousExtractor) :
  VGGAtrousExtractor_init layers filters cfg batch_norm s = (s', Ok net) →
  ∀ seq, seq ∈ sequentials net →
    batch_norm_discipline batch_norm (arch seq) = true ∧
    (batch_norm = false → ABatchNorm ∉ arch seq).
Proof.
  intros Hbuild seq Hin.
  assert (batch_norm_discipline batch_norm (arch seq) = true) as Hd.
  { pose proof Hbuild as Hinv.
    apply VGGAtrousExtractor_init_inv in Hinv
      as (s1 & Hbase & _ & _ & Hex & Htr & Hfu & Hllt).
    apply VGGAtrousBase_init_arch in Hbase.
    unfold sequentials in Hin.
    rewrite !elem_of_app, list_elem_of_singleton in Hin.
    destruct Hin as [Hin|[Hin|[->|[Hin|Hin]]]].
    - apply (list_elem_of_fmap_2 arch) in Hin. rewrite Hbase in Hin.
      apply elem_of_app in Hin as [Hin|Hin].
      + apply list_elem_of_fmap in Hin as ([l f] & -> & _).
        unfold stage_arch. apply discipline_blocks, Forall_replicate. eauto 10.
      + apply list_elem_of_singleton in Hin as ->. by destruct batch_norm.
    - apply (list_elem_of_fmap_2 arch) in Hin. rewrite Hex in Hin.
      apply list_elem_of_fmap in Hin as (config & -> & _).
      unfold extra_arch. apply discipline_blocks, Forall_fmap, Forall_forall.
      intros [[[f k] st] p] _. cbn. eauto 10.
    - rewrite Hllt. by destruct batch_norm.
    - apply (list_elem_of_fmap_2 arch) in Hin. rewrite Htr in Hin.
      apply elem_of_replicate in Hin as [-> _]. by destruct batch_norm.
    - apply (list_elem_of_fmap_2 arch) in Hin. rewrite Hfu in Hin.
      apply elem_of_replicate in Hin as [-> _]. by destruct batch_norm. }
  split; [done|]. intros -> Hbn. clear -Hd Hbn.
  induction (arch seq) as [|a l IH]; [by apply elem_of_nil in Hbn|].
  apply elem_of_cons in Hbn as [<-|Hbn]; [done|].
  destruct a as [f k st p d| |act]; [|done|by apply IH].
  destruct l as [|[] l]; cbn in Hd; try done; by apply IH.
Qed.

Lemma batch_norm_all_or_nothing_witness :
  last_layer_trans vgg16_net ∈ sequentials vgg16_net ∧
  batch_norm_discipline false (arch (last_layer_trans vgg16_net)) = true ∧
  ABatchNorm ∉ arch (last_layer_trans vgg16_net).
Proof.
  assert (last_layer_trans vgg16_net ∈ sequentials vgg16_net) as Hin.
  { unfold sequentials. rewrite !elem_of_app, list_elem_of_singleton. auto. }
  split; [exact Hin|].
  destruct (batch_norm_all_or_nothing _ _ _ _ _ _ _ vgg16_init _ Hin) as [Hd Hno].
  split; [exact Hd|exact (Hno eq_refl)].
Defined.

(** ** [_upsample] with any stride *)

Lemma upsample_NDArray_stride {A} (x : NDArray.t A) (stride : Z) :
  0 ≤ stride →
  _upsample x stride =
  Ok (fmap (M:=list) (fmap (M:=list)
        (λ ch, NDArray.repeat_each (Z.to_nat stride)
                 (NDArray.repeat_each (Z.to_nat stride) <$> ch))) x).
Proof.
  intros Hs.
  unfold _upsample, tensor_repeat, NDArray.Repeat_NDArray, NDArray.repeat.
  change (-1 + 4) with 3. change (-2 + 4) with 2.
  destruct (Z.ltb_spec stride 0); [lia|]. cbn.
  f_equal. rewrite <- list_fmap_compose. apply list_fmap_ext. intros _ img _. cbn.
  rewrite <- list_fmap_compose. by apply list_fmap_ext.
Qed.

Lemma repeat_each_1 {B} (l : list B) : NDArray.repeat_each 1 l = l.
Proof. induction l as [|b l IH]; [done|]. cbn. by rewrite IH. Qed.




(** ** The forward pass, in both directions *)

Section forward_intro.
Context {T : Type} `{TensorEngine T}.

Lemma extras_loop_intro (es : list HybridSequential) (x : T)
    (arm odm : list (option T)) (ys : list T) :
  extras_outputs es x = Ok ys →
  ∃ x', for_each es (λ '(x, outputs) extra,
      x ← HybridSequential_forward extra x;
      outputs ← outputs_append outputs "ARM_features" x;
      mret (x, outputs)) (x, mk_outputs arm odm)
    = Ok (x', mk_outputs (arm ++ (Some <$> ys)) odm).
Proof.
  revert x arm ys. induction es as [|e es IH]; intros x arm ys Hys; cbn in Hys.
  - injection Hys as <-. exists x. cbn. by rewrite app_nil_r.
  - apply bind_Ok in Hys as (y & Hy & Hys).
    apply bind_Ok in Hys as (ys' & Hys' & Hys). injection Hys as <-.
    destruct (IH y (arm ++ [Some y]) ys' Hys') as (x' & Hloop).
    exists x'. cbn [for_each]. rewrite Hy. cbn. rewrite outputs_append_ARM. cbn.
    rewrite Hloop. by rewrite <- app_assoc.
Qed.

Lemma top_down_round_intro (self : VGGAtrousExtractor) (i : Z)
    (arm odm : list (option T)) (deep shallow r : T) :
  0 < i → (Z.to_nat (i - 1) < length odm)%nat →
  odm !! Z.to_nat i = Some (Some deep) →
  arm !! Z.to_nat (i - 1) = Some (Some shallow) →
  top_down self i deep shallow = Ok r →
  (deep_fet ← outputs_getitem (mk_outputs arm odm) "ODM_features" i;
   shallow_fet ← outputs_getitem (mk_outputs arm odm) "ARM_features" (i - 1);
   deep_fet ← tensor_of deep_fet;
   upsampled_fet ← _upsample deep_fet 2;
   transition ← getitem (transitions self) (i - 1);
   shallow_fet ← tensor_of shallow_fet;
   transition_fet ← HybridSequential_forward transition shallow_fet;
   sum ← tensor_add upsampled_fet transition_fet;
   ele_sum ← F_Activation sum "relu";
   outputs_setitem (mk_outputs arm odm) "ODM_features" (i - 1) ele_sum)
  = Ok (mk_outputs arm (<[Z.to_nat (i - 1) := Some r]> odm)).
Proof.
  intros Hi Hlen Hdeep Hshallow Htd. unfold top_down in Htd.
  apply bind_Ok in Htd as (up & Hup & Htd).
  apply bind_Ok in Htd as (transition & Htransition & Htd).
  apply bind_Ok in Htd as (tr & Htr & Htd).
  apply bind_Ok in Htd as (sm & Hsum & Hr).
  rewrite outputs_getitem_ODM, outputs_getitem_ARM.
  rewrite (getitem_nonneg odm), (getitem_nonneg arm) by lia.
  rewrite Hdeep, Hshallow. cbn. rewrite Hup. cbn. rewrite Htransition. cbn.
  rewrite Htr. cbn. rewrite Hsum. cbn. rewrite Hr. cbn.
  rewrite outputs_setitem_ODM, setitem_nonneg by (done || lia). done.
Qed.

Lemma fuse_round_intro (self : VGGAtrousExtractor) (i : Z)
    (arm odm : list (option T)) (fet fused : T) :
  0 ≤ i →
  odm !! Z.to_nat i = Some (Some fet) →
  fuse self i fet = Ok fused →
  (fusion ← getitem (fusions self) i;
   fet ← outputs_getitem (mk_outputs arm odm) "ODM_features" i;
   fet ← tensor_of fet;
   fused ← HybridSequential_forward fusion fet;
   outputs_setitem (mk_outputs arm odm) "ODM_features" i fused)
  = Ok (mk_outputs arm (<[Z.to_nat i := Some fused]> odm)).
Proof.
  intros Hi Hfet Hfuse. unfold fuse in Hfuse.
  apply bind_Ok in Hfuse as (fusion & Hfusion & Hfused).
  rewrite Hfusion. cbn. rewrite outputs_getitem_ODM, getitem_nonneg by lia.
  rewrite Hfet. cbn. rewrite Hfused. cbn.
  rewrite outputs_setitem_ODM, setitem_nonneg; [done|done|by eapply lookup_lt_Some].
Qed.

Lemma hybrid_forward_intro (self : VGGAtrousExtractor)
    (x init_scale x4 x6 n4 n5 : T) (ys : list T)
    (deepest a2 p6 p5 p4 p3 o3 o4 o5 : T) :
  length (stages (base self)) = 6%nat →
  conv4_3 self x init_scale = Ok x4 →
  Normalize_forward (norm4 (base self)) x4 = Ok n4 →
  conv_fc7 self x4 = Ok x6 →
  Normalize_forward (norm5 (base self)) x6 = Ok n5 →
  extras_outputs (extras self) x6 = Ok ys →
  last ([n4; n5] ++ ys) = Some deepest →
  ys !! 0%nat = Some a2 →
  HybridSequential_forward (last_layer_trans self) deepest = Ok p6 →
  top_down self 3 p6 a2 = Ok p5 →
  top_down self 2 p5 n5 = Ok p4 →
  top_down self 1 p4 n4 = Ok p3 →
  fuse self 0 p3 = Ok o3 →
  fuse self 1 p4 = Ok o4 →
  fuse self 2 p5 = Ok o5 →
  hybrid_forward self x init_scale
  = Ok (mk_outputs (Some <$> [n4; n5] ++ ys) [Some o3; Some o4; Some o5; Some p6]).
Proof.
  intros Hstages H4 Hn4 H6 Hn5 Hys Hlast Hys0 Hp6 Hp5 Hp4 Hp3 Ho3 Ho4 Ho5.
  unfold conv4_3, conv_fc7, run_stage in H4, H6. unfold hybrid_forward.
  destruct (stages (base self)) as [|s0 [|s1 [|s2 [|s3 [|s4 [|s5 [|]]]]]]];
    try discriminate Hstages.
  change (getitem [s0; s1; s2; s3; s4; s5] 0) with (Ok s0) in *.
  change (getitem [s0; s1; s2; s3; s4; s5] 1) with (Ok s1) in *.
  change (getitem [s0; s1; s2; s3; s4; s5] 2) with (Ok s2) in *.
  change (getitem [s0; s1; s2; s3; s4; s5] 3) with (Ok s3) in *.
  change (getitem [s0; s1; s2; s3; s4; s5] 4) with (Ok s4) in *.
  change (getitem [s0; s1; s2; s3; s4; s5] 5) with (Ok s5) in *.
  apply bind_Ok in H4 as (x0 & Hx0 & H4).
  apply bind_Ok in H4 as (y0 & Hy0 & H4). apply bind_Ok in H4 as (x1 & Hx1 & H4).
  apply bind_Ok in H4 as (y1 & Hy1 & H4). apply bind_Ok in H4 as (x2 & Hx2 & H4).
  apply bind_Ok in H4 as (y2 & Hy2 & H4). apply bind_Ok in H4 as (x3 & Hx3 & H4).
  apply bind_Ok in H6 as (x5 & Hx5 & H6). apply bind_Ok in H6 as (y5 & Hy5 & H6).
  apply bind_Ok in H6 as (z5 & Hz5 & H6).
  cbn in Hy0, Hy1, Hy2, H4, Hy5, H6.
  rewrite Hx0.
  change (assert (bool_decide (6%nat = 6%nat))) with (Ok ()).
  cbn [mbind result_bind take for_each].
  rewrite Hy0. cbn. rewrite Hx1. cbn. rewrite Hy1. cbn.
  rewrite Hx2. cbn. rewrite Hy2. cbn. rewrite Hx3. cbn. rewrite H4. cbn.
  rewrite Hn4. cbn. fold (mk_outputs (T:=T) [] []).
  rewrite outputs_append_ARM. cbn. rewrite Hx5. cbn. rewrite Hy5. cbn.
  rewrite Hz5. cbn. rewrite H6. cbn. rewrite Hn5. cbn.
  rewrite outputs_append_ARM. cbn.
  destruct (extras_loop_intro (extras self) x6 [Some n4; Some n5] [] ys Hys)
    as (x' & Hloop).
  rewrite Hloop. cbn. rewrite insert_ODM.
  rewrite outputs_getitem_ARM, getitem_last.
  change (Some n4 :: Some n5 :: (Some <$> ys)) with (Some <$> ([n4; n5] ++ ys)).
  rewrite fmap_last, Hlast. cbn [fmap option_fmap option_map mbind result_bind tensor_of].
  rewrite Hp6. cbn [mbind result_bind].
  rewrite outputs_setitem_ODM.
  change (setitem [None; None; None; None] (-1) (Some p6))
    with (Ok [None; None; None; Some p6]).
  change (assert (bool_decide (6%nat = 6%nat))) with (Ok ()).
  cbn [mbind result_bind].
  assert ((Some <$> [n4; n5] ++ ys) !! 2%nat = Some (Some a2)) as Harm2.
  { rewrite list_lookup_fmap. change (([n4; n5] ++ ys) !! 2%nat) with (ys !! 0%nat).
    by rewrite Hys0. }
  rewrite (top_down_round_intro self 3 _ _ p6 a2 p5);
    [|lia|vm_compute; lia|done|exact Harm2|done].
  cbn [mbind result_bind].
  rewrite (top_down_round_intro self 2 _ _ p5 n5 p4);
    [|lia|vm_compute; lia|done|done|done].
  cbn [mbind result_bind].
  rewrite (top_down_round_intro self 1 _ _ p4 n4 p3);
    [|lia|vm_compute; lia|done|done|done].
  cbn [mbind result_bind mret result_ret].
  change (range 3) with [0; 1; 2]. cbn [for_each mbind result_bind].
  rewrite (fuse_round_intro self 0 _ _ p3 o3); [|lia|done|done].
  cbn [mbind result_bind].
  rewrite (fuse_round_intro self 1 _ _ p4 o4); [|lia|done|done].
  cbn [mbind result_bind].
  rewrite (fuse_round_intro self 2 _ _ p5 o5); [|lia|done|done].
  done.
Qed.

End forward_intro.

(** X11: the forward pass, loop-free.  [hybrid_forward] returns [out] exactly
    when the network has 6 base stages and every step of the chain succeeds:
    stage 3 and the dilated stage with their Normalize layers, the extra
    stages fed one into the next (at least one), [last_layer_trans] on the
    last ARM feature, the three top-down rounds down from it, and the three
    fusion blocks on their results; [out] then holds the ARM features
    [n4; n5] followed by the outputs of the extra stages and the four ODM
    features. *)
Theorem forward_characterisation {T : Type} `{TensorEngine T}
    (self : VGGAtrousExtractor) (x init_scale : T)
    (out : gmap string (list (option T))) :
  hybrid_forward self x init_scale = Ok out ↔
  length (stages (base self)) = 6%nat ∧
  ∃ x4 x6 n4 n5 ys deepest a2 p6 p5 p4 p3 o3 o4 o5,
    conv4_3 self x init_scale = Ok x4 ∧
    Normalize_forward (norm4 (base self)) x4 = Ok n4 ∧
    conv_fc7 self x4 = Ok x6 ∧
    Normalize_forward (norm5 (base self)) x6 = Ok n5 ∧
    extras_outputs (extras self) x6 = Ok ys ∧
    last ([n4; n5] ++ ys) = Some deepest ∧
    ys !! 0%nat = Some a2 ∧
    HybridSequential_forward (last_layer_trans self) deepest = Ok p6 ∧
    top_down self 3 p6 a2 = Ok p5 ∧
    top_down self 2 p5 n5 = Ok p4 ∧
    top_down self 1 p4 n4 = Ok p3 ∧
    fuse self 0 p3 = Ok o3 ∧
    fuse self 1 p4 = Ok o4 ∧
    fuse self 2 p5 = Ok o5 ∧
    out = <["ARM_features" := Some <$> [n4; n5] ++ ys]>
            (<["ODM_features" := [Some o3; Some o4; Some o5; Some p6]]> ∅).
Proof.
  split.
  - intros Hfwd. apply hybrid_forward_inv in Hfwd
      as (Hstages & x4 & x6 & n4 & n5 & ys & deepest & a2 & p6 & p5 & p4 & p3 & o3
          & o4 & o5 & H4 & Hn4 & H6 & Hn5 & Hys & _ & Hlast & Hys0 & Hp6 & Hp5
          & Hp4 & Hp3 & Ho3 & Ho4 & Ho5 & ->).
    split; [done|].
    exists x4, x6, n4, n5, ys, deepest, a2, p6, p5, p4, p3, o3, o4, o5. done.
  - intros (Hstages & x4 & x6 & n4 & n5 & ys & deepest & a2 & p6 & p5 & p4 & p3
            & o3 & o4 & o5 & H4 & Hn4 & H6 & Hn5 & Hys & Hlast & Hys0 & Hp6 & Hp5
            & Hp4 & Hp3 & Ho3 & Ho4 & Ho5 & ->).
    by eapply hybrid_forward_intro.
Qed.

Lemma forward_characterisation_witness :
  length (stages (base vgg16_net)) = 6%nat ∧
  ∃ x4 x6 n4 n5 ys deepest a2 p6 p5 p4 p3 o3 o4 o5,
    conv4_3 vgg16_net [1; 3; 320; 320] [1; 3; 1; 1] = Ok x4 ∧
    Normalize_forward (norm4 (base vgg16_net)) x4 = Ok n4 ∧
    conv_fc7 vgg16_net x4 = Ok x6 ∧
    Normalize_forward (norm5 (base vgg16_net)) x6 = Ok n5 ∧
    extras_outputs (extras vgg16_net) x6 = Ok ys ∧
    last ([n4; n5] ++ ys) = Some deepest ∧
    ys !! 0%nat = Some a2 ∧
    HybridSequential_forward (last_layer_trans vgg16_net) deepest = Ok p6 ∧
    top_down vgg16_net 3 p6 a2 = Ok p5 ∧
    top_down vgg16_net 2 p5 n5 = Ok p4 ∧
    top_down vgg16_net 1 p4 n4 = Ok p3 ∧
    fuse vgg16_net 0 p3 = Ok o3 ∧
    fuse vgg16_net 1 p4 = Ok o4 ∧
    fuse vgg16_net 2 p5 = Ok o5 ∧
    vgg16_out = <["ARM_features" := Some <$> [n4; n5] ++ ys]>
                  (<["ODM_features" := [Some o3; Some o4; Some o5; Some p6]]> ∅).
Proof.
  exact (proj1 (forward_characterisation vgg16_net [1; 3; 320; 320] [1; 3; 1; 1]
                  vgg16_out) vgg16_forward).
Defined.

Section total_engine.
Context {T : Type} `{TensorEngine T}.
Hypothesis Htotal : engine_total T.

Lemma HybridSequential_forward_total (seq : HybridSequential) (x : T) :
  ∃ y, HybridSequential_forward seq x = Ok y.
Proof using Htotal.
  destruct Htotal as (Hp & _ & _ & _ & _ & Hact & Hconv & Hbn & _).
  unfold HybridSequential_forward. revert x.
  induction (children seq) as [|l ls IH]; intros x; cbn; [by eexists|].
  assert (∃ y, Layer_forward l x = Ok y) as (y & ->).
  { destruct l as [c k st p d w b|g b m v|a]; cbn.
    - destruct (Hp w) as (tw & ->), (Hp b) as (tb & ->). cbn. apply Hconv.
    - destruct (Hp g) as (tg & ->), (Hp b) as (tb & ->), (Hp m) as (tm & ->),
        (Hp v) as (tv & ->). cbn. apply Hbn.
    - apply Hact. }
  cbn. apply IH.
Qed.

Lemma Normalize_forward_total (n : Normalize) (x : T) :
  ∃ y, Normalize_forward n x = Ok y.
Proof using Htotal.
  destruct Htotal as (Hp & _ & Hmul & Hl2 & _).
  unfold Normalize_forward. destruct (Hp (scale n)) as (sc & ->). cbn.
  destruct (Hl2 x "channel" (eps n)) as (y & ->). cbn. apply Hmul.
Qed.

Lemma run_stage_total (self : VGGAtrousExtractor) (k : Z) (x : T) :
  0 ≤ k → (Z.to_nat k < length (stages (base self)))%nat →
  ∃ y, run_stage self k x = Ok y.
Proof using Htotal.
  intros Hk Hlt. unfold run_stage. rewrite getitem_nonneg by done.
  destruct (lookup_lt_is_Some_2 _ _ Hlt) as (st & ->). cbn.
  apply HybridSequential_forward_total.
Qed.

Lemma conv4_3_total (self : VGGAtrousExtractor) (x init_scale : T) :
  length (stages (base self)) = 6%nat → ∃ y, conv4_3 self x init_scale = Ok y.
Proof using Htotal.
  intros Hst. pose proof Htotal as (_ & _ & Hmul & _ & Hpool & _).
  unfold conv4_3, max_pool_2x2.
  destruct (Hmul x init_scale) as (x0 & ->). cbn.
  destruct (run_stage_total self 0 x0) as (y0 & ->); [lia|rewrite Hst; cbn; lia|]. cbn.
  destruct (Hpool y0 "max" (2, 2) (2, 2) (0, 0) "full") as (x1 & ->). cbn.
  destruct (run_stage_total self 1 x1) as (y1 & ->); [lia|rewrite Hst; cbn; lia|]. cbn.
  destruct (Hpool y1 "max" (2, 2) (2, 2) (0, 0) "full") as (x2 & ->). cbn.
  destruct (run_stage_total self 2 x2) as (y2 & ->); [lia|rewrite Hst; cbn; lia|]. cbn.
  destruct (Hpool y2 "max" (2, 2) (2, 2) (0, 0) "full") as (x3 & ->). cbn.
  apply run_stage_total; [lia|rewrite Hst; cbn; lia].
Qed.

Lemma conv_fc7_total (self : VGGAtrousExtractor) (x : T) :
  length (stages (base self)) = 6%nat → ∃ y, conv_fc7 self x = Ok y.
Proof using Htotal.
  intros Hst. pose proof Htotal as (_ & _ & _ & _ & Hpool & _).
  unfold conv_fc7, max_pool_2x2.
  destruct (Hpool x "max" (2, 2) (2, 2) (0, 0) "full") as (x1 & ->). cbn.
  destruct (run_stage_total self 4 x1) as (y1 & ->); [lia|rewrite Hst; cbn; lia|]. cbn.
  destruct (Hpool y1 "max" (3, 3) (1, 1) (1, 1) "full") as (x2 & ->). cbn.
  apply run_stage_total; [lia|rewrite Hst; cbn; lia].
Qed.

Lemma extras_outputs_total (es : list HybridSequential) (x : T) :
  ∃ ys, extras_outputs es x = Ok ys ∧ length ys = length es.
Proof using Htotal.
  revert x. induction es as [|e es IH]; intros x; cbn; [by exists []|].
  destruct (HybridSequential_forward_total e x) as (y & ->). cbn.
  destruct (IH y) as (ys & -> & Hlen). cbn. exists (y :: ys). cbn. by rewrite Hlen.
Qed.

Lemma top_down_total (self : VGGAtrousExtractor) (i : Z) (deep shallow : T) :
  0 < i → (Z.to_nat (i - 1) < length (transitions self))%nat →
  ∃ r, top_down self i deep shallow = Ok r.
Proof using Htotal.
  intros Hi Hlt. pose proof Htotal as (_ & Hrep & _ & _ & _ & Hact & _ & _ & Hadd).
  unfold top_down, _upsample.
  destruct (Hrep deep (-1) 2) as (u1 & ->). cbn.
  destruct (Hrep u1 (-2) 2) as (u2 & ->). cbn.
  rewrite getitem_nonneg by lia.
  destruct (lookup_lt_is_Some_2 _ _ Hlt) as (tr & ->). cbn.
  destruct (HybridSequential_forward_total tr shallow) as (t & ->). cbn.
  destruct (Hadd u2 t) as (sm & ->). cbn. apply Hact.
Qed.

Lemma fuse_total (self : VGGAtrousExtractor) (i : Z) (x : T) :
  0 ≤ i → (Z.to_nat i < length (fusions self))%nat →
  ∃ r, fuse self i x = Ok r.
Proof using Htotal.
  intros Hi Hlt. unfold fuse. rewrite getitem_nonneg by lia.
  destruct (lookup_lt_is_Some_2 _ _ Hlt) as (fu & ->). cbn.
  apply HybridSequential_forward_total.
Qed.

End total_engine.

Lemma Symbol_engine_total : engine_total Symbol.t.
Proof. repeat split; intros; by eexists. Qed.

(** X12: when no tensor operator raises (as when a symbolic graph is
    composed), the outcome of the forward pass of a constructed network is
    decided by its configuration alone: AssertionError unless
    [len(layers) = 5]; IndexError with no extra stage; otherwise a result
    with 2 + [len(extras)] ARM features and 4 ODM features - also for one
    extra stage or for three, where the ARM and ODM lists no longer match. *)
Theorem forward_outcome_without_operator_errors {T : Type} `{TensorEngine T}
    (layers filters : list Z) (cfg : list (list extra_conv)) (batch_norm : bool)
    s s' (net : VGGAtrousExtractor) (x init_scale : T) :
  engine_total T →
  VGGAtrousExtractor_init layers filters cfg batch_norm s = (s', Ok net) →
  (length layers ≠ 5%nat →
     hybrid_forward net x init_scale = Raise AssertionError) ∧
  (length layers = 5%nat → cfg = [] →
     hybrid_forward net x init_scale = Raise IndexError) ∧
  (length layers = 5%nat → cfg ≠ [] →
     ∃ out (arm odm : list T),
       hybrid_forward net x init_scale = Ok out ∧
       out !! "ARM_features" = Some (Some <$> arm) ∧
       length arm = (2 + length cfg)%nat ∧
       out !! "ODM_features" = Some (Some <$> odm) ∧
       length odm = 4%nat).
Proof.
  intros Htotal Hbuild.
  apply VGGAtrousExtractor_init_inv in Hbuild
    as (s1 & Hbase & _ & Hextras & _ & Htr & Hfu & _).
  apply VGGAtrousBase_init_inv in Hbase as (_ & Hstages & _).
  apply (f_equal length) in Htr, Hfu. rewrite length_fmap in Htr, Hfu.
  cbn in Htr, Hfu.
  split; [|split].
  - intros H5. unfold hybrid_forward.
    destruct Htotal as (_ & _ & Hmul & _).
    destruct (Hmul x init_scale) as (x0 & ->). cbn.
    rewrite bool_decide_eq_false_2 by lia. done.
  - intros H5 ->. rewrite H5 in Hstages.
    destruct (extras net) as [|] eqn:He; [|done].
    destruct (conv4_3_total Htotal net x init_scale Hstages) as (x4 & H4).
    destruct (Normalize_forward_total Htotal (norm4 (base net)) x4) as (n4 & Hn4).
    destruct (conv_fc7_total Htotal net x4 Hstages) as (x6 & H6).
    destruct (Normalize_forward_total Htotal (norm5 (base net)) x6) as (n5 & Hn5).
    destruct (HybridSequential_forward_total Htotal (last_layer_trans net) n5)
      as (p6 & Hp6).
    by eapply no_extras_IndexError.
  - intros H5 Hcfg. rewrite H5 in Hstages.
    destruct (conv4_3_total Htotal net x init_scale Hstages) as (x4 & H4).
    destruct (Normalize_forward_total Htotal (norm4 (base net)) x4) as (n4 & Hn4).
    destruct (conv_fc7_total Htotal net x4 Hstages) as (x6 & H6).
    destruct (Normalize_forward_total Htotal (norm5 (base net)) x6) as (n5 & Hn5).
    destruct (extras_outputs_total Htotal (extras net) x6) as (ys & Hys & Hlen).
    assert (∃ a2, ys !! 0%nat = Some a2) as (a2 & Hys0).
    { apply lookup_lt_is_Some_2. rewrite Hlen, Hextras. destruct cfg; [done|cbn; lia]. }
    assert (∃ deepest, last ([n4; n5] ++ ys) = Some deepest) as (deepest & Hlast).
    { destruct (last ([n4; n5] ++ ys)) eqn:E; [by eexists|].
      by apply last_None in E. }
    destruct (HybridSequential_forward_total Htotal (last_layer_trans net) deepest)
      as (p6 & Hp6).
    destruct (top_down_total Htotal net 3 p6 a2) as (p5 & Hp5);
      [lia|rewrite Htr; cbn; lia|].
    destruct (top_down_total Htotal net 2 p5 n5) as (p4 & Hp4);
      [lia|rewrite Htr; cbn; lia|].
    destruct (top_down_total Htotal net 1 p4 n4) as (p3 & Hp3);
      [lia|rewrite Htr; cbn; lia|].
    destruct (fuse_total Htotal net 0 p3) as (o3 & Ho3); [lia|rewrite Hfu; cbn; lia|].
    destruct (fuse_total Htotal net 1 p4) as (o4 & Ho4); [lia|rewrite Hfu; cbn; lia|].
    destruct (fuse_total Htotal net 2 p5) as (o5 & Ho5); [lia|rewrite Hfu; cbn; lia|].
    eexists _, ([n4; n5] ++ ys), [o3; o4; o5; p6].
    split; [by eapply hybrid_forward_intro|].
    rewrite mk_outputs_lookup_ARM, mk_outputs_lookup_ODM.
    rewrite length_app, Hlen, Hextras. done.
Qed.

Lemma forward_outcome_without_operator_errors_witness :
  hybrid_forward vgg4_net (Symbol.var "data") (Symbol.param 0)
    = Raise AssertionError ∧
  hybrid_forward no_extras_net (Symbol.var "data") (Symbol.param 0)
    = Raise IndexError ∧
  ∃ out (arm odm : list Symbol.t),
    hybrid_forward one_extra_net (Symbol.var "data") (Symbol.param 0) = Ok out ∧
    out !! "ARM_features" = Some (Some <$> arm) ∧
    length arm = (2 + length [[(256, 1, 1, 0); (512, 3, 2, 1)]])%nat ∧
    out !! "ODM_features" = Some (Some <$> odm) ∧
    length odm = 4%nat.
Proof.
  assert (VGGAtrousExtractor_init [2; 2; 3; 3] [64; 128; 256; 512]
            [[(256, 1, 1, 0); (512, 3, 2, 1)]; [(128, 1, 1, 0); (256, 3, 2, 1)]]
            false empty_state = (vgg4_state, Ok vgg4_net)) as H4
    by (vm_compute; exact eq_refl).
  assert (VGGAtrousExtractor_init [2; 2; 3; 3; 3] [64; 128; 256; 512; 512]
            [] false empty_state = (no_extras_state, Ok no_extras_net)) as H0
    by (vm_compute; exact eq_refl).
  assert (VGGAtrousExtractor_init [2; 2; 3; 3; 3] [64; 128; 256; 512; 512]
            [[(256, 1, 1, 0); (512, 3, 2, 1)]] false empty_state
          = (one_extra_state, Ok one_extra_net)) as H1
    by (vm_compute; exact eq_refl).
  split; [|split].
  - exact (proj1 (forward_outcome_without_operator_errors _ _ _ _ _ _ _
                    (Symbol.var "data") (Symbol.param 0) Symbol_engine_total H4)
             ltac:(cbn; lia)).
  - exact (proj1 (proj2 (forward_outcome_without_operator_errors _ _ _ _ _ _ _
                    (Symbol.var "data") (Symbol.param 0) Symbol_engine_total H0))
             eq_refl eq_refl).
  - exact (proj2 (proj2 (forward_outcome_without_operator_errors _ _ _ _ _ _ _
                    (Symbol.var "data") (Symbol.param 0) Symbol_engine_total H1))
             eq_refl ltac:(discriminate)).
Defined.

(** ** Parameters *)

Lemma alloc_refl (s : BuildState) : alloc s s [].
Proof. exists 0%nat. split; [lia|done]. Qed.

Lemma alloc_trans (s s1 s2 : BuildState) (ids1 ids2 : list nat) :
  alloc s s1 ids1 → alloc s1 s2 ids2 → alloc s s2 (ids1 ++ ids2).
Proof.
  intros (k1 & H1 & ->) (k2 & H2 & ->). exists (k1 + k2)%nat.
  split; [lia|]. rewrite H1. by rewrite seq_app.
Qed.

Lemma alloc_new_block cls s s' u :
  new_block cls s = (s', Ok u) → alloc s s' [].
Proof. intros [= <- _]. exists 0%nat. cbn. split; [lia|done]. Qed.

Lemma alloc_params_get name shape init s s' id :
  params_get name shape init s = (s', Ok id) → alloc s s' [id].
Proof.
  intros [= <- <-]. exists 1%nat. cbn. rewrite length_app. done.
Qed.

Lemma alloc_Conv2D channels k st p d init s s' l :
  nn_Conv2D channels k st p d init s = (s', Ok l) → alloc s s' (layer_params l).
Proof.
  intros [= <- <-]. exists 2%nat. cbn. rewrite !length_app. cbn.
  split; [lia|]. repeat f_equal; lia.
Qed.

Lemma alloc_BatchNorm s s' l :
  nn_BatchNorm s = (s', Ok l) → alloc s s' (layer_params l).
Proof.
  intros [= <- <-]. exists 4%nat. cbn. rewrite !length_app. cbn.
  split; [lia|]. repeat f_equal; lia.
Qed.

Lemma alloc_Activation act s s' l :
  nn_Activation act s = (s', Ok l) → alloc s s' (layer_params l).
Proof. intros [= <- <-]. exists 0%nat. cbn. split; [lia|done]. Qed.

Lemma alloc_HybridSequential pre s s' seq :
  nn_HybridSequential pre s = (s', Ok seq) → alloc s s' (sequential_params seq).
Proof. intros [= <- <-]. exists 0%nat. cbn. split; [lia|done]. Qed.

Lemma alloc_Normalize n_channel initial s s' n :
  Normalize_init n_channel initial s = (s', Ok n) → alloc s s' [scale n].
Proof.
  intros [= <- <-]. exists 1%nat. cbn. rewrite length_app. done.
Qed.

Lemma sequential_params_add (seq : HybridSequential) (l : Layer) :
  sequential_params (add seq l) = sequential_params seq ++ layer_params l.
Proof.
  unfold sequential_params, add. cbn. rewrite fmap_app, join_app. cbn.
  by rewrite app_nil_r.
Qed.

Lemma alloc_add_BatchNorm_if (batch_norm : bool) seq s s' seq' :
  add_BatchNorm_if batch_norm seq s = (s', Ok seq') →
  ∃ ids, alloc s s' ids ∧ sequential_params seq' = sequential_params seq ++ ids.
Proof.
  destruct batch_norm; cbn.
  - intros H. apply Build_bind_Ok in H as (s1 & bn & Hbn & H).
    injection H as <- <-. exists (layer_params bn).
    split; [by eapply alloc_BatchNorm|apply sequential_params_add].
  - intros [= <- <-]. exists []. split; [apply alloc_refl|by rewrite app_nil_r].
Qed.

(** A convolution, the optional batch normalisation and ReLU, appended to a
    sequential block. *)
Lemma alloc_conv_bn_relu (mk : Build Layer) (batch_norm : bool)
    (acc : HybridSequential) s s' acc' :
  (∀ t t' l, mk t = (t', Ok l) → alloc t t' (layer_params l)) →
  (conv ← mk;
   st ← add_BatchNorm_if batch_norm (add acc conv);
   relu ← nn_Activation "relu";
   mret (add st relu)) s = (s', Ok acc') →
  ∃ ids, alloc s s' ids ∧ sequential_params acc' = sequential_params acc ++ ids.
Proof.
  intros Hmk H.
  apply Build_bind_Ok in H as (s1 & conv & Hconv & H).
  apply Build_bind_Ok in H as (s2 & st & Hst & H).
  apply Build_bind_Ok in H as (s3 & relu & Hrelu & H).
  injection H as <- <-.
  apply Hmk in Hconv. apply alloc_add_BatchNorm_if in Hst as (ids & Hids & Hst).
  apply alloc_Activation in Hrelu.
  exists (layer_params conv ++ ids ++ layer_params relu). split.
  - eapply alloc_trans; [exact Hconv|]. by eapply alloc_trans.
  - rewrite sequential_params_add, Hst, sequential_params_add.
    by rewrite <- !app_assoc.
Qed.

(** A loop whose body allocates the parameters it appends to a trace. *)
Lemma for_each_alloc {A S} (m : S → list nat) (l : list A) (f : S → A → Build S) :
  (∀ acc a s s' acc', f acc a s = (s', Ok acc') →
     ∃ ids, alloc s s' ids ∧ m acc' = m acc ++ ids) →
  ∀ acc s s' acc', for_each l f acc s = (s', Ok acc') →
    ∃ ids, alloc s s' ids ∧ m acc' = m acc ++ ids.
Proof.
  intros Hf. induction l as [|a l IH]; intros acc s s' acc' Hrun; cbn in Hrun.
  - injection Hrun as <- <-. exists []. split; [apply alloc_refl|by rewrite app_nil_r].
  - apply Build_bind_Ok in Hrun as (s1 & acc1 & H1 & Hrun).
    apply Hf in H1 as (ids1 & Ha1 & H1). apply IH in Hrun as (ids2 & Ha2 & H2).
    exists (ids1 ++ ids2). split; [by eapply alloc_trans|].
    by rewrite H2, H1, <- app_assoc.
Qed.

Lemma join_snoc {A} (ls : list (list A)) (l : list A) :
  mjoin (ls ++ [l]) = mjoin ls ++ l.
Proof. rewrite join_app. cbn. by rewrite app_nil_r. Qed.

Lemma VGGAtrousBase_init_alloc (layers filters : list Z) (batch_norm : bool)
    s s' (b : VGGAtrousBase) :
  VGGAtrousBase_init layers filters batch_norm s = (s', Ok b) →
  alloc s s' ([init_scale b] ++ mjoin (sequential_params <$> stages b) ++
              [scale (norm4 b); scale (norm5 b)]).
Proof.
  unfold VGGAtrousBase_init. intros H.
  apply Build_bind_Ok in H as (s1 & [] & Hs1 & H). injection Hs1 as <- _.
  apply Build_bind_Ok in H as (s2 & i0 & Hi0 & H). apply alloc_params_get in Hi0.
  apply Build_bind_Ok in H as (s3 & [] & Hs3 & H). apply alloc_new_block in Hs3.
  apply Build_bind_Ok in H as (s4 & sts & Hstages & H).
  apply (for_each_alloc (λ acc, mjoin (sequential_params <$> acc)))
    in Hstages as (ids4 & Hs4 & Hstages).
  2:{ clear. intros acc [l f] t t' acc' Hbody.
      apply Build_bind_Ok in Hbody as (t1 & stage & Hnew & Hbody).
      apply Build_bind_Ok in Hbody as (t2 & stage' & Hinner & Hbody).
      injection Hbody as <- <-.
      pose proof (alloc_HybridSequential _ _ _ _ Hnew) as Ht1.
      injection Hnew as _ <-.
      apply (for_each_alloc sequential_params) in Hinner as (ids & Ht2 & Hinner).
      - exists ids. split.
        + apply (alloc_trans _ _ _ [] _ Ht1 Ht2).
        + rewrite fmap_app, join_app. cbn [fmap list_fmap mjoin list_join].
          by rewrite app_nil_r, Hinner.
      - intros acc0 i u u' acc0' Hb.
        eapply (alloc_conv_bn_relu _ _ _ _ _ _ _ Hb). Unshelve.
        intros ? ? ?. apply alloc_Conv2D. }
  cbn in Hstages.
  apply Build_bind_Ok in H as (s5 & stage & Hs5 & H).
  pose proof (alloc_HybridSequential _ _ _ _ Hs5) as Ha5. injection Hs5 as _ <-.
  apply Build_bind_Ok in H as (s6 & conv & Hs6 & H). apply alloc_Conv2D in Hs6.
  apply Build_bind_Ok in H as (s7 & stage7 & Hs7 & H).
  apply alloc_add_BatchNorm_if in Hs7 as (ids7 & Hs7 & Hp7).
  apply Build_bind_Ok in H as (s8 & relu & Hs8 & H). apply alloc_Activation in Hs8.
  apply Build_bind_Ok in H as (s9 & conv9 & Hs9 & H). apply alloc_Conv2D in Hs9.
  apply Build_bind_Ok in H as (s10 & stage10 & Hs10 & H).
  apply alloc_add_BatchNorm_if in Hs10 as (ids10 & Hs10 & Hp10).
  apply Build_bind_Ok in H as (s11 & relu11 & Hs11 & H). apply alloc_Activation in Hs11.
  apply Build_bind_Ok in H as (s12 & f3 & Hs12 & H). injection Hs12 as <- _.
  apply Build_bind_Ok in H as (s13 & n4 & Hs13 & H). apply alloc_Normalize in Hs13.
  apply Build_bind_Ok in H as (s14 & n5 & Hs14 & H). apply alloc_Normalize in Hs14.
  injection H as <- <-. cbn [init_scale stages norm4 norm5].
  rewrite fmap_app, join_app, Hstages. cbn [fmap list_fmap mjoin list_join].
  rewrite app_nil_r.
  rewrite sequential_params_add, Hp10, sequential_params_add,
    sequential_params_add, Hp7, sequential_params_add.
  change (sequential_params {| prefix := "dilated_"; children := [] |}) with (@nil nat).
  pose proof (alloc_trans _ _ _ _ _ Hi0 Hs3) as A1.
  pose proof (alloc_trans _ _ _ _ _ A1 Hs4) as A2.
  pose proof (alloc_trans _ _ _ _ _ A2 Ha5) as A3.
  pose proof (alloc_trans _ _ _ _ _ A3 Hs6) as A4.
  pose proof (alloc_trans _ _ _ _ _ A4 Hs7) as A5.
  pose proof (alloc_trans _ _ _ _ _ A5 Hs8) as A6.
  pose proof (alloc_trans _ _ _ _ _ A6 Hs9) as A7.
  pose proof (alloc_trans _ _ _ _ _ A7 Hs10) as A8.
  pose proof (alloc_trans _ _ _ _ _ A8 Hs11) as A9.
  pose proof (alloc_trans _ _ _ _ _ A9 Hs13) as A10.
  pose proof (alloc_trans _ _ _ _ _ A10 Hs14) as A11.
  cbn [sequential_params children fmap list_fmap mjoin list_join] in A11.
  match goal with |- alloc _ _ ?g =>
    match type of A11 with alloc _ _ ?c => replace g with c; [exact A11|] end
  end.
  rewrite <- !app_assoc. cbn [app]. by rewrite ?app_nil_r.
Qed.

Lemma alloc_conv3x3_256 init s s' l :
  conv3x3_256 init s = (s', Ok l) → alloc s s' (layer_params l).
Proof. apply alloc_Conv2D. Qed.

Ltac alloc_chain A :=
  match goal with |- alloc _ _ ?g =>
    match type of A with alloc _ _ ?c => replace g with c; [exact A|] end
  end;
  rewrite <- ?app_assoc; cbn [app]; rewrite ?app_nil_r.

Lemma VGGAtrousExtractor_init_alloc (layers filters : list Z)
    (cfg : list (list extra_conv)) (batch_norm : bool) s s'
    (net : VGGAtrousExtractor) :
  VGGAtrousExtractor_init layers filters cfg batch_norm s = (s', Ok net) →
  alloc s s' (net_params net).
Proof.
  unfold VGGAtrousExtractor_init. intros H.
  apply Build_bind_Ok in H as (s1 & b & Hb & H).
  apply VGGAtrousBase_init_alloc in Hb.
  apply Build_bind_Ok in H as (s2 & [] & Hs2 & H). apply alloc_new_block in Hs2.
  apply Build_bind_Ok in H as (s3 & ex & Hex & H).
  apply (for_each_alloc (λ acc, mjoin (sequential_params <$> acc)))
    in Hex as (ids3 & Hs3 & Hex).
  2:{ clear. intros acc [i config] t t' acc' Hbody.
      apply Build_bind_Ok in Hbody as (t1 & extra & Hnew & Hbody).
      apply Build_bind_Ok in Hbody as (t2 & extra' & Hinner & Hbody).
      injection Hbody as <- <-.
      pose proof (alloc_HybridSequential _ _ _ _ Hnew) as Ht1.
      injection Hnew as _ <-.
      apply (for_each_alloc sequential_params) in Hinner as (ids & Ht2 & Hinner).
      - exists ids. split.
        + apply (alloc_trans _ _ _ [] _ Ht1 Ht2).
        + rewrite fmap_app, join_app. cbn [fmap list_fmap mjoin list_join].
          by rewrite app_nil_r, Hinner.
      - intros acc0 [[[f k] st] p] u u' acc0' Hbd.
        eapply (alloc_conv_bn_relu _ _ _ _ _ _ _ Hbd). Unshelve.
        intros ? ? ?. apply alloc_Conv2D. }
  cbn in Hex.
  apply Build_bind_Ok in H as (s4 & llt0 & Hs4 & H).
  pose proof (alloc_HybridSequential _ _ _ _ Hs4) as Ha4. injection Hs4 as _ <-.
  apply Build_bind_Ok in H as (s5 & llt & Hllt & H).
  apply (for_each_alloc sequential_params) in Hllt as (ids5 & Hs5 & Hllt).
  2:{ intros acc0 i u u' acc0' Hbd.
      eapply (alloc_conv_bn_relu _ _ _ _ _ _ _ Hbd). Unshelve.
      intros ? ? ?. apply alloc_conv3x3_256. }
  cbn in Hllt.
  apply Build_bind_Ok in H as (s6 & [] & Hs6 & H). apply alloc_new_block in Hs6.
  apply Build_bind_Ok in H as (s7 & tr & Htr & H).
  apply (for_each_alloc (λ acc, mjoin (sequential_params <$> acc)))
    in Htr as (ids7 & Hs7 & Htr).
  2:{ clear. intros acc i t t' acc' Hbody.
      apply Build_bind_Ok in Hbody as (t1 & tr0 & Hnew & Hbody).
      pose proof (alloc_HybridSequential _ _ _ _ Hnew) as Ht1.
      injection Hnew as _ <-.
      apply Build_bind_Ok in Hbody as (t2 & c1 & Hc1 & Hbody).
      apply alloc_conv3x3_256 in Hc1.
      apply Build_bind_Ok in Hbody as (t3 & tr3 & Ht3 & Hbody).
      apply alloc_add_BatchNorm_if in Ht3 as (i3 & Ht3 & Hp3).
      apply Build_bind_Ok in Hbody as (t4 & relu & Ht4 & Hbody).
      apply alloc_Activation in Ht4.
      apply Build_bind_Ok in Hbody as (t5 & c5 & Hc5 & Hbody).
      apply alloc_conv3x3_256 in Hc5.
      apply Build_bind_Ok in Hbody as (t6 & tr6 & Ht6 & Hbody).
      apply alloc_add_BatchNorm_if in Ht6 as (i6 & Ht6 & Hp6).
      injection Hbody as <- <-.
      pose proof (alloc_trans _ _ _ _ _ Ht1 Hc1) as A1.
      pose proof (alloc_trans _ _ _ _ _ A1 Ht3) as A2.
      pose proof (alloc_trans _ _ _ _ _ A2 Ht4) as A3.
      pose proof (alloc_trans _ _ _ _ _ A3 Hc5) as A4.
      pose proof (alloc_trans _ _ _ _ _ A4 Ht6) as A5.
      eexists. split; [exact A5|].
      rewrite fmap_app, join_app. cbn [fmap list_fmap mjoin list_join].
      rewrite app_nil_r, Hp6, sequential_params_add, sequential_params_add, Hp3,
        sequential_params_add.
      cbn [sequential_params children fmap list_fmap mjoin list_join].
      by rewrite <- ?app_assoc. }
  cbn in Htr.
  apply Build_bind_Ok in H as (s8 & [] & Hs8 & H). apply alloc_new_block in Hs8.
  apply Build_bind_Ok in H as (s9 & fu & Hfu & H).
  apply (for_each_alloc (λ acc, mjoin (sequential_params <$> acc)))
    in Hfu as (ids9 & Hs9 & Hfu).
  2:{ clear. intros acc i t t' acc' Hbody.
      apply Build_bind_Ok in Hbody as (t1 & fu0 & Hnew & Hbody).
      pose proof (alloc_HybridSequential _ _ _ _ Hnew) as Ht1.
      injection Hnew as _ <-.
      apply Build_bind_Ok in Hbody as (t2 & c1 & Hc1 & Hbody).
      apply alloc_conv3x3_256 in Hc1.
      apply Build_bind_Ok in Hbody as (t3 & fu3 & Ht3 & Hbody).
      apply alloc_add_BatchNorm_if in Ht3 as (i3 & Ht3 & Hp3).
      apply Build_bind_Ok in Hbody as (t4 & relu & Ht4 & Hbody).
      apply alloc_Activation in Ht4.
      injection Hbody as <- <-.
      pose proof (alloc_trans _ _ _ _ _ Ht1 Hc1) as A1.
      pose proof (alloc_trans _ _ _ _ _ A1 Ht3) as A2.
      pose proof (alloc_trans _ _ _ _ _ A2 Ht4) as A3.
      eexists. split; [exact A3|].
      rewrite fmap_app, join_app. cbn [fmap list_fmap mjoin list_join].
      rewrite app_nil_r, sequential_params_add, Hp3, sequential_params_add.
      cbn [sequential_params children fmap list_fmap mjoin list_join].
      by rewrite <- ?app_assoc. }
  cbn in Hfu.
  injection H as <- <-. unfold net_params.
  cbn [base extras last_layer_trans transitions fusions].
  rewrite Hex, Hllt, Htr, Hfu.
  pose proof (alloc_trans _ _ _ _ _ Hb Hs2) as A1.
  pose proof (alloc_trans _ _ _ _ _ A1 Hs3) as A2.
  pose proof (alloc_trans _ _ _ _ _ A2 Ha4) as A3.
  pose proof (alloc_trans _ _ _ _ _ A3 Hs5) as A4.
  pose proof (alloc_trans _ _ _ _ _ A4 Hs6) as A5.
  pose proof (alloc_trans _ _ _ _ _ A5 Hs7) as A6.
  pose proof (alloc_trans _ _ _ _ _ A6 Hs8) as A7.
  pose proof (alloc_trans _ _ _ _ _ A7 Hs9) as A8.
  cbn [sequential_params children fmap list_fmap mjoin list_join] in A8 |- *.
  alloc_chain A8. done.
Qed.

(** X13: parameters are neither shared nor dangling.  The parameters the
    layers of a constructed network refer to ([init_scale], those of the
    stages, the two Normalize scales, those of the extra stages, of
    [last_layer_trans], of the transition branches and of the fusion blocks,
    in this order) are exactly the parameters allocated during the
    construction, each once and in the order of allocation; so no two layers
    share a parameter, every parameter referred to exists, none is left
    unused, and the parameters allocated before are untouched. *)
Theorem parameters_fresh_and_distinct (layers filters : list Z)
    (cfg : list (list extra_conv)) (batch_norm : bool) s s'
    (net : VGGAtrousExtractor) :
  VGGAtrousExtractor_init layers filters cfg batch_norm s = (s', Ok net) →
  net_params net
    = seq (length (params s)) (length (params s') - length (params s)) ∧
  NoDup (net_params net) ∧
  (∀ id, id ∈ net_params net ↔
         (length (params s) ≤ id < length (params s'))%nat) ∧
  (∀ id, id ∈ net_params net → is_Some (params s' !! id)) ∧
  params s `prefix_of` params s'.
Proof.
  intros Hbuild.
  pose proof (VGGAtrousExtractor_init_alloc _ _ _ _ _ _ _ Hbuild) as (k & Hk & Hids).
  assert (params s `prefix_of` params s') as Hpre.
  { apply VGGAtrousExtractor_init_inv in Hbuild as (s1 & Hbase & Hpre & _).
    etrans; [|exact Hpre].
    refine ((_ : grows _) _ _ _ Hbase). unfold VGGAtrousBase_init. solve_grows. }
  replace (length (params s') - length (params s))%nat with k by lia.
  split; [done|]. rewrite Hids. split; [apply NoDup_seq|].
  split; [intros id; rewrite elem_of_seq; lia|]. split; [|done].
  intros id Hid. apply elem_of_seq in Hid. apply lookup_lt_is_Some_2. lia.
Qed.

Lemma parameters_fresh_and_distinct_witness :
  net_params vgg16_net
    = seq (length (params empty_state))
          (length (params vgg16_state) - length (params empty_state)) ∧
  NoDup (net_params vgg16_net) ∧
  (∀ id, id ∈ net_params vgg16_net ↔
         (length (params empty_state) ≤ id < length (params vgg16_state))%nat) ∧
  (∀ id, id ∈ net_params vgg16_net → is_Some (params vgg16_state !! id)) ∧
  params empty_state `prefix_of` params vgg16_state.
Proof. exact (parameters_fresh_and_distinct _ _ _ _ _ _ _ vgg16_init). Defined.

(** ** Initialisers *)

Lemma layer_init_ok_mono (ps ps' : list Param) (l : Layer) :
  ps `prefix_of` ps' → layer_init_ok ps l → layer_init_ok ps' l.
Proof.
  intros Hpre. destruct l as [c k st p d w b| |]; cbn; [|done..].
  intros [Hw Hb]. split; by eapply prefix_lookup_Some.
Qed.

Lemma sequential_init_ok_mono (ps ps' : list Param) (seq : HybridSequential) :
  ps `prefix_of` ps' → sequential_init_ok ps seq → sequential_init_ok ps' seq.
Proof.
  intros Hpre Hseq. eapply Forall_impl; [exact Hseq|].
  intros l. by apply layer_init_ok_mono.
Qed.

Lemma init_ok_Conv2D channels k st p d s s' l :
  nn_Conv2D channels k st p d xavier_init s = (s', Ok l) →
  layer_init_ok (params s') l.
Proof.
  intros [= <- <-]. cbn. split.
  - rewrite lookup_app_l by (rewrite length_app; cbn; lia).
    by rewrite list_lookup_middle.
  - by rewrite list_lookup_middle by (rewrite length_app; cbn; lia).
Qed.

Lemma sequential_init_ok_add ps seq l :
  sequential_init_ok ps seq → layer_init_ok ps l → sequential_init_ok ps (add seq l).
Proof.
  intros Hseq Hl. unfold sequential_init_ok, add. cbn.
  apply Forall_app. split; [done|]. by constructor.
Qed.

Lemma init_ok_add_BatchNorm_if (batch_norm : bool) seq s s' seq' :
  add_BatchNorm_if batch_norm seq s = (s', Ok seq') →
  sequential_init_ok (params s) seq → sequential_init_ok (params s') seq'.
Proof.
  intros H Hseq.
  assert (params s `prefix_of` params s') as Hpre.
  { refine ((_ : grows _) _ _ _ H). solve_grows. }
  apply (sequential_init_ok_mono _ _ _ Hpre) in Hseq.
  destruct batch_norm; cbn in H.
  - apply Build_bind_Ok in H as (s1 & bn & Hbn & H). injection H as <- <-.
    apply sequential_init_ok_add; [done|]. by injection Hbn as _ <-.
  - by injection H as <- <-.
Qed.

Lemma init_ok_conv_bn_relu (mk : Build Layer) (batch_norm : bool)
    (acc : HybridSequential) s s' acc' :
  grows mk →
  (∀ t t' l, mk t = (t', Ok l) → layer_init_ok (params t') l) →
  (conv ← mk;
   st ← add_BatchNorm_if batch_norm (add acc conv);
   relu ← nn_Activation "relu";
   mret (add st relu)) s = (s', Ok acc') →
  sequential_init_ok (params s) acc → sequential_init_ok (params s') acc'.
Proof.
  intros Hgrow Hmk H Hacc.
  apply Build_bind_Ok in H as (s1 & conv & Hconv & H).
  apply Build_bind_Ok in H as (s2 & st & Hst & H).
  apply Build_bind_Ok in H as (s3 & relu & Hrelu & H).
  injection H as <- <-. injection Hrelu as <- <-.
  change (params _) with (params s2).
  apply sequential_init_ok_add; [|done].
  eapply init_ok_add_BatchNorm_if; [exact Hst|].
  apply sequential_init_ok_add; [|by eapply Hmk].
  eapply sequential_init_ok_mono; [|exact Hacc]. by eapply Hgrow.
Qed.

(** A loop whose body keeps an invariant of the state and the accumulator. *)
Lemma for_each_Build_inv {A S} (I : BuildState → S → Prop)
    (l : list A) (f : S → A → Build S) :
  (∀ acc a s s' acc', f acc a s = (s', Ok acc') → I s acc → I s' acc') →
  ∀ acc s s' acc', for_each l f acc s = (s', Ok acc') → I s acc → I s' acc'.
Proof.
  intros Hf. induction l as [|a l IH]; intros acc s s' acc' Hrun Hacc; cbn in Hrun.
  - by injection Hrun as <- <-.
  - apply Build_bind_Ok in Hrun as (s1 & acc1 & H1 & Hrun).
    eapply IH; [exact Hrun|]. by eapply Hf.
Qed.

Lemma grows_Conv2D channels k st p d init : grows (nn_Conv2D channels k st p d init).
Proof. solve_grows. Qed.

Lemma sequential_init_ok_relu s s' relu ps seq :
  nn_Activation "relu" s = (s', Ok relu) →
  sequential_init_ok ps seq → sequential_init_ok ps (add seq relu).
Proof.
  intros [= _ <-] Hseq. by apply sequential_init_ok_add.
Qed.

Lemma params_Activation act s s' l :
  nn_Activation act s = (s', Ok l) → params s' = params s.
Proof. by intros [= <- _]. Qed.

Lemma params_HybridSequential pre s s' seq :
  nn_HybridSequential pre s = (s', Ok seq) → params s' = params s ∧ children seq = [].
Proof. by intros [= <- <-]. Qed.

Lemma VGGAtrousBase_init_ok (layers filters : list Z) (batch_norm : bool)
    s s' (b : VGGAtrousBase) :
  VGGAtrousBase_init layers filters batch_norm s = (s', Ok b) →
  init b = xavier_init ∧ Forall (sequential_init_ok (params s')) (stages b).
Proof.
  unfold VGGAtrousBase_init. intros H.
  apply Build_bind_Ok in H as (s1 & [] & _ & H).
  apply Build_bind_Ok in H as (s2 & i0 & _ & H).
  apply Build_bind_Ok in H as (s3 & [] & _ & H).
  apply Build_bind_Ok in H as (s4 & sts & Hstages & H).
  apply (for_each_Build_inv (λ s acc, Forall (sequential_init_ok (params s)) acc))
    in Hstages; [|clear|by constructor].
  2:{ intros acc [l f] t t' acc' Hbody Hacc.
      assert (params t `prefix_of` params t') as Hpre.
      { refine ((_ : grows _) _ _ _ Hbody). solve_grows. }
      apply Build_bind_Ok in Hbody as (t1 & stage & Hnew & Hbody).
      apply Build_bind_Ok in Hbody as (t2 & stage' & Hinner & Hbody).
      injection Hbody as <- <-.
      apply params_HybridSequential in Hnew as [_ Hnil].
      apply (for_each_Build_inv (λ s seq, sequential_init_ok (params s) seq))
        in Hinner.
      - apply Forall_app. split; [|by constructor].
        eapply Forall_impl; [exact Hacc|]. intros seq.
        by apply sequential_init_ok_mono.
      - intros acc0 i u u' acc0' Hbd.
        eapply (init_ok_conv_bn_relu _ _ _ _ _ _ _ _ Hbd). Unshelve.
        + apply grows_Conv2D.
        + intros ? ? ?. apply init_ok_Conv2D.
      - unfold sequential_init_ok. rewrite Hnil. constructor. }
  assert (params s4 `prefix_of` params s') as Hpre4.
  { refine ((_ : grows _) _ _ _ H). solve_grows. }
  apply Build_bind_Ok in H as (s5 & stage & Hs5 & H).
  apply params_HybridSequential in Hs5 as [_ Hnil].
  apply Build_bind_Ok in H as (s6 & conv & Hs6 & H).
  apply init_ok_Conv2D in Hs6.
  apply Build_bind_Ok in H as (s7 & stage7 & Hs7 & H).
  apply init_ok_add_BatchNorm_if in Hs7.
  2:{ apply Forall_app. unfold sequential_init_ok. rewrite Hnil.
      split; by repeat constructor. }
  apply Build_bind_Ok in H as (s8 & relu & Hs8 & H).
  pose proof (params_Activation _ _ _ _ Hs8) as Hp8.
  pose proof (sequential_init_ok_relu _ _ _ _ _ Hs8 Hs7) as Hst8.
  rewrite <- Hp8 in Hst8.
  apply Build_bind_Ok in H as (s9 & conv9 & Hs9 & H).
  pose proof (grows_Conv2D _ _ _ _ _ _ _ _ _ Hs9) as Hpre9.
  apply init_ok_Conv2D in Hs9.
  apply Build_bind_Ok in H as (s10 & stage10 & Hs10 & H).
  apply init_ok_add_BatchNorm_if in Hs10.
  2:{ apply sequential_init_ok_add; [|done].
      by eapply sequential_init_ok_mono. }
  apply Build_bind_Ok in H as (s11 & relu11 & Hs11 & H).
  pose proof (params_Activation _ _ _ _ Hs11) as Hp11.
  pose proof (sequential_init_ok_relu _ _ _ _ _ Hs11 Hs10) as Hst11.
  rewrite <- Hp11 in Hst11.
  assert (params s11 `prefix_of` params s') as Hpre11.
  { refine ((_ : grows _) _ _ _ H). solve_grows. }
  apply Build_bind_Ok in H as (s12 & f3 & _ & H).
  apply Build_bind_Ok in H as (s13 & n4 & _ & H).
  apply Build_bind_Ok in H as (s14 & n5 & _ & H).
  injection H as <- <-. split; [done|]. cbn [stages].
  apply Forall_app. split.
  - eapply Forall_impl; [exact Hstages|]. intros seq.
    by apply sequential_init_ok_mono.
  - constructor; [|done]. by eapply sequential_init_ok_mono.
Qed.

Lemma VGGAtrousExtractor_init_ok (layers filters : list Z)
    (cfg : list (list extra_conv)) (batch_norm : bool) s s'
    (net : VGGAtrousExtractor) :
  VGGAtrousExtractor_init layers filters cfg batch_norm s = (s', Ok net) →
  Forall (sequential_init_ok (params s')) (sequentials net).
Proof.
  unfold VGGAtrousExtractor_init. intros H.
  apply Build_bind_Ok in H as (s1 & b & Hb & H).
  apply VGGAtrousBase_init_ok in Hb as [Hinit Hb]. rewrite Hinit in H.
  assert (params s1 `prefix_of` params s') as Hpre1.
  { refine ((_ : grows _) _ _ _ H). solve_grows. }
  apply Build_bind_Ok in H as (s2 & [] & _ & H).
  apply Build_bind_Ok in H as (s3 & ex & Hex & H).
  apply (for_each_Build_inv (λ s acc, Forall (sequential_init_ok (params s)) acc))
    in Hex; [|clear|by constructor].
  2:{ intros acc [i config] t t' acc' Hbody Hacc.
      assert (params t `prefix_of` params t') as Hpre.
      { refine ((_ : grows _) _ _ _ Hbody). solve_grows. }
      apply Build_bind_Ok in Hbody as (t1 & extra & Hnew & Hbody).
      apply Build_bind_Ok in Hbody as (t2 & extra' & Hinner & Hbody).
      injection Hbody as <- <-.
      apply params_HybridSequential in Hnew as [_ Hnil].
      apply (for_each_Build_inv (λ s seq, sequential_init_ok (params s) seq))
        in Hinner.
      - apply Forall_app. split; [|by constructor].
        eapply Forall_impl; [exact Hacc|]. intros seq.
        by apply sequential_init_ok_mono.
      - intros acc0 [[[f k] st] p] u u' acc0' Hbd.
        eapply (init_ok_conv_bn_relu _ _ _ _ _ _ _ _ Hbd). Unshelve.
        + apply grows_Conv2D.
        + intros ? ? ?. apply init_ok_Conv2D.
      - unfold sequential_init_ok. rewrite Hnil. constructor. }
  assert (params s3 `prefix_of` params s') as Hpre3.
  { refine ((_ : grows _) _ _ _ H). solve_grows. }
  apply Build_bind_Ok in H as (s4 & llt0 & Hs4 & H).
  apply params_HybridSequential in Hs4 as [_ Hnil4].
  apply Build_bind_Ok in H as (s5 & llt & Hllt & H).
  apply (for_each_Build_inv (λ s seq, sequential_init_ok (params s) seq)) in Hllt.
  2:{ intros acc0 i u u' acc0' Hbd.
      eapply (init_ok_conv_bn_relu _ _ _ _ _ _ _ _ Hbd). Unshelve.
      - apply grows_Conv2D.
      - intros ? ? ?. apply init_ok_Conv2D. }
  2:{ unfold sequential_init_ok. rewrite Hnil4. constructor. }
  assert (params s5 `prefix_of` params s') as Hpre5.
  { refine ((_ : grows _) _ _ _ H). solve_grows. }
  apply Build_bind_Ok in H as (s6 & [] & _ & H).
  apply Build_bind_Ok in H as (s7 & tr & Htr & H).
  apply (for_each_Build_inv (λ s acc, Forall (sequential_init_ok (params s)) acc))
    in Htr; [|clear|by constructor].
  2:{ intros acc i t t' acc' Hbody Hacc.
      assert (params t `prefix_of` params t') as Hpre.
      { refine ((_ : grows _) _ _ _ Hbody). solve_grows. }
      apply Build_bind_Ok in Hbody as (t1 & tr0 & Hnew & Hbody).
      apply params_HybridSequential in Hnew as [_ Hnil].
      apply Build_bind_Ok in Hbody as (t2 & c1 & Hc1 & Hbody).
      apply init_ok_Conv2D in Hc1.
      apply Build_bind_Ok in Hbody as (t3 & tr3 & Ht3 & Hbody).
      apply init_ok_add_BatchNorm_if in Ht3.
      2:{ apply Forall_app. unfold sequential_init_ok. rewrite Hnil.
          split; by repeat constructor. }
      apply Build_bind_Ok in Hbody as (t4 & relu & Ht4 & Hbody).
      pose proof (params_Activation _ _ _ _ Ht4) as Hp4.
      pose proof (sequential_init_ok_relu _ _ _ _ _ Ht4 Ht3) as Hst4.
      rewrite <- Hp4 in Hst4.
      apply Build_bind_Ok in Hbody as (t5 & c5 & Hc5 & Hbody).
      pose proof (grows_Conv2D _ _ _ _ _ _ _ _ _ Hc5) as Hpre5.
      apply init_ok_Conv2D in Hc5.
      apply Build_bind_Ok in Hbody as (t6 & tr6 & Ht6 & Hbody).
      apply init_ok_add_BatchNorm_if in Ht6.
      2:{ apply sequential_init_ok_add; [|done].
          by eapply sequential_init_ok_mono. }
      injection Hbody as <- <-.
      apply Forall_app. split; [|by constructor].
      eapply Forall_impl; [exact Hacc|]. intros seq.
      by apply sequential_init_ok_mono. }
  assert (params s7 `prefix_of` params s') as Hpre7.
  { refine ((_ : grows _) _ _ _ H). solve_grows. }
  apply Build_bind_Ok in H as (s8 & [] & _ & H).
  apply Build_bind_Ok in H as (s9 & fu & Hfu & H).
  apply (for_each_Build_inv (λ s acc, Forall (sequential_init_ok (params s)) acc))
    in Hfu; [|clear|by constructor].
  2:{ intros acc i t t' acc' Hbody Hacc.
      assert (params t `prefix_of` params t') as Hpre.
      { refine ((_ : grows _) _ _ _ Hbody). solve_grows. }
      apply Build_bind_Ok in Hbody as (t1 & fu0 & Hnew & Hbody).
      apply params_HybridSequential in Hnew as [_ Hnil].
      apply Build_bind_Ok in Hbody as (t2 & c1 & Hc1 & Hbody).
      apply init_ok_Conv2D in Hc1.
      apply Build_bind_Ok in Hbody as (t3 & fu3 & Ht3 & Hbody).
      apply init_ok_add_BatchNorm_if in Ht3.
      2:{ apply Forall_app. unfold sequential_init_ok. rewrite Hnil.
          split; by repeat constructor. }
      apply Build_bind_Ok in Hbody as (t4 & relu & Ht4 & Hbody).
      pose proof (params_Activation _ _ _ _ Ht4) as Hp4.
      pose proof (sequential_init_ok_relu _ _ _ _ _ Ht4 Ht3) as Hst4.
      rewrite <- Hp4 in Hst4.
      injection Hbody as <- <-.
      apply Forall_app. split; [|by constructor].
      eapply Forall_impl; [exact Hacc|]. intros seq.
      by apply sequential_init_ok_mono. }
  injection H as <- <-. unfold sequentials.
  cbn [base extras last_layer_trans transitions fusions].
  repeat apply Forall_app_2; try done.
  - eapply Forall_impl; [exact Hb|]. intros seq.
    exact (sequential_init_ok_mono _ _ _ Hpre1).
  - eapply Forall_impl; [exact Hex|]. intros seq.
    exact (sequential_init_ok_mono _ _ _ Hpre3).
  - constructor; [|done]. exact (sequential_init_ok_mono _ _ _ Hpre5 Hllt).
  - eapply Forall_impl; [exact Htr|]. intros seq.
    exact (sequential_init_ok_mono _ _ _ Hpre7).
Qed.



(** X15: the forward pass handles no error of the tensor library.  On a
    network of 6 stages, whatever the scaling, stages 0 to 3 or their
    poolings raise is raised unchanged by the forward pass; so is what the
    Normalize layer of stage 3 raises, and what the pooling, stage 4, the
    3x3 pooling or the dilated stage raise after that. *)
Theorem backbone_errors_propagate {T : Type} `{TensorEngine T}
    (self : VGGAtrousExtractor) (x init_scale : T) (e : exn) :
  length (stages (base self)) = 6%nat →
  (conv4_3 self x init_scale = Raise e →
   hybrid_forward self x init_scale = Raise e) ∧
  (∀ x4, conv4_3 self x init_scale = Ok x4 →
     Normalize_forward (norm4 (base self)) x4 = Raise e →
     hybrid_forward self x init_scale = Raise e) ∧
  (∀ x4 n4, conv4_3 self x init_scale = Ok x4 →
     Normalize_forward (norm4 (base self)) x4 = Ok n4 →
     conv_fc7 self x4 = Raise e →
     hybrid_forward self x init_scale = Raise e).
Proof.
  intros Hstages.
  unfold conv4_3, conv_fc7, run_stage, hybrid_forward.
  destruct (stages (base self)) as [|s0 [|s1 [|s2 [|s3 [|s4 [|s5 [|]]]]]]];
    try discriminate Hstages.
  change (getitem [s0; s1; s2; s3; s4; s5] 0) with (Ok s0).
  change (getitem [s0; s1; s2; s3; s4; s5] 1) with (Ok s1).
  change (getitem [s0; s1; s2; s3; s4; s5] 2) with (Ok s2).
  change (getitem [s0; s1; s2; s3; s4; s5] 3) with (Ok s3).
  change (getitem [s0; s1; s2; s3; s4; s5] 4) with (Ok s4).
  change (getitem [s0; s1; s2; s3; s4; s5] 5) with (Ok s5).
  change (assert (bool_decide (length [s0; s1; s2; s3; s4; s5] = 6%nat)))
    with (Ok ()).
  cbn [take for_each mbind result_bind mret result_ret].
  destruct (F_broadcast_mul x init_scale) as [x0|e0];
    cbn [mbind result_bind]; [|repeat split; intros; congruence].
  destruct (HybridSequential_forward s0 x0) as [y0|e0];
    cbn [mbind result_bind]; [|repeat split; intros; congruence].
  destruct (max_pool_2x2 y0) as [x1|e0];
    cbn [mbind result_bind]; [|repeat split; intros; congruence].
  destruct (HybridSequential_forward s1 x1) as [y1|e0];
    cbn [mbind result_bind]; [|repeat split; intros; congruence].
  destruct (max_pool_2x2 y1) as [x2|e0];
    cbn [mbind result_bind]; [|repeat split; intros; congruence].
  destruct (HybridSequential_forward s2 x2) as [y2|e0];
    cbn [mbind result_bind]; [|repeat split; intros; congruence].
  destruct (max_pool_2x2 y2) as [x3|e0];
    cbn [mbind result_bind mret result_ret]; [|repeat split; intros; congruence].
  destruct (HybridSequential_forward s3 x3) as [x4|e0];
    cbn [mbind result_bind]; [|repeat split; intros; congruence].
  split; [done|]. split.
  - intros ? [= <-] ->. done.
  - intros ? n4 [= <-] -> H6. cbn [mbind result_bind].
    fold (mk_outputs (T:=T) [] []). rewrite outputs_append_ARM.
    cbn [mbind result_bind].
    destruct (max_pool_2x2 x4) as [x5|e0]; cbn [mbind result_bind] in H6 |- *;
      [|congruence].
    destruct (HybridSequential_forward s4 x5) as [y5|e0];
      cbn [mbind result_bind] in H6 |- *; [|congruence].
    destruct (F_Pooling y5 "max" (3, 3) (1, 1) (1, 1) "full") as [z5|e0];
      cbn [mbind result_bind] in H6 |- *; [|congruence].
    rewrite H6. done.
Qed.

Lemma backbone_errors_propagate_witness :
  conv4_3 (H0:=Shape.engine (params vgg16_state)) vgg16_net
    [1; 3; 320] [1; 3; 1] = Raise (MXNetError "shape") ∧
  hybrid_forward (H0:=Shape.engine (params vgg16_state)) vgg16_net
    [1; 3; 320] [1; 3; 1] = Raise (MXNetError "shape").
Proof.
  assert (conv4_3 (H0:=Shape.engine (params vgg16_state)) vgg16_net
            [1; 3; 320] [1; 3; 1] = Raise (MXNetError "shape")) as H4
    by (vm_compute; exact eq_refl).
  split; [exact H4|].
  exact (proj1 (backbone_errors_propagate (H0:=Shape.engine (params vgg16_state))
                  vgg16_net [1; 3; 320] [1; 3; 1] (MXNetError "shape") eq_refl) H4).
Defined.
